(** * Gender & Youth Department API: a shallow embedding of [main.py] and
      [schemas.py], and the properties of its handlers.

    The development follows the layers of the service:
    - [Py]: the Python values that occur in documents, [str], [isoformat],
      and [bson.ObjectId];
    - [Heap]: dictionaries as shared mutable objects, for [serialize_doc];
    - [Schemas]: the pydantic models of [schemas.py] and the partial models
      of [main.py];
    - [Store]: the MongoDB driver calls the handlers make, with a log of
      every call;
    - [Handlers]: the request handlers of [main.py];
    - [Spec]: the notions the properties are stated with;
    - [Samples]: a small store and a few requests to run the handlers on. *)

From Stdlib Require Import ZArith NArith String Ascii List Bool Lia DecimalString.
From stdpp Require Import base option list gmap strings fin_maps infinite.

Open Scope string_scope.
Open Scope Z_scope.

(** A Python [dict] with string keys is a finite map. *)
Abbreviation dict_of V := (gmap string V).

(* ===================================================================== *)
(** * Python values *)
(* ===================================================================== *)

Module Py.

(** [bson.ObjectId]: the bytes it holds, each below 256.  The driver
    makes identifiers of twelve bytes; [ObjectId(text)] keeps whatever
    bytes the text spells. *)
Inductive ObjectId := Oid (binary : list N).

(** [datetime.date]. *)
Record date := Date { d_year : N; d_month : N; d_day : N }.

(** [datetime.datetime], naive, as the driver decodes BSON dates. *)
Record datetime := DateTime {
  t_date : date; t_hour : N; t_minute : N; t_second : N; t_microsecond : N }.

(** The values a stored record or a payload field can hold. *)
Inductive value :=
| VNone
| VBool (b : bool)
| VInt (z : Z)
| VStr (s : string)
| VObjectId (o : ObjectId)
| VDate (d : date)
| VDateTime (t : datetime).

#[export] Instance ObjectId_eq_dec : EqDecision ObjectId.
Proof. solve_decision. Defined.
#[export] Instance date_eq_dec : EqDecision date.
Proof. solve_decision. Defined.
#[export] Instance datetime_eq_dec : EqDecision datetime.
Proof. solve_decision. Defined.
#[export] Instance value_eq_dec : EqDecision value.
Proof. solve_decision. Defined.
#[export] Instance value_inhabited : Inhabited value := populate VNone.

(** ** Hexadecimal text of an [ObjectId] *)

Definition hex_char (d : N) : ascii :=
  if (d <? 10)%N then ascii_of_N (48 + d) else ascii_of_N (87 + d).

Definition hex_digit (c : ascii) : option N :=
  let n := N_of_ascii c in
  if ((48 <=? n) && (n <=? 57))%N then Some (n - 48)%N
  else if ((97 <=? n) && (n <=? 102))%N then Some (n - 87)%N
  else if ((65 <=? n) && (n <=? 70))%N then Some (n - 55)%N
  else None.

(** [Py_ISSPACE]: the blanks [bytes.fromhex] skips. *)
Definition isspace (c : ascii) : bool :=
  let n := N_of_ascii c in
  ((n =? 32) || ((9 <=? n) && (n <=? 13)))%N.

(** [bytes.fromhex(s)]: two hexadecimal digits per byte, blanks skipped
    before each byte and at the end; [None] stands for [ValueError]. *)
Fixpoint fromhex (s : string) : option (list N) :=
  match s with
  | EmptyString => Some []
  | String c rest =>
      if isspace c then fromhex rest
      else
        match hex_digit c, rest with
        | Some top, String c' rest' =>
            match hex_digit c' with
            | Some bot => cons (16 * top + bot)%N <$> fromhex rest'
            | None => None
            end
        | _, _ => None
        end
  end.

(** [binascii.hexlify(bytes)]: two lower-case digits per byte. *)
Fixpoint hexlify (bytes : list N) : string :=
  match bytes with
  | [] => ""
  | b :: rest =>
      String (hex_char (b / 16)%N) (String (hex_char (b mod 16)%N) (hexlify rest))
  end.

(** [ObjectId(s)] for a [str] argument: a text of length twenty-four that
    [bytes.fromhex] reads, or [InvalidId] ([None] here).  Twenty-four
    digits give twelve bytes; a text with blanks between its bytes gives
    fewer and is taken all the same. *)
Definition ObjectId_of_str (s : string) : option ObjectId :=
  if (String.length s =? 24)%nat then Oid <$> fromhex s else None.

(** [str(oid)]: the bytes in lower-case hexadecimal. *)
Definition ObjectId_str (o : ObjectId) : string :=
  let 'Oid binary := o in hexlify binary.

(** The [k] low bytes of [n], most significant first, before [acc]. *)
Fixpoint big_endian (k : nat) (n : N) (acc : list N) : list N :=
  match k with
  | O => acc
  | S k' => big_endian k' (n / 256)%N ((n mod 256)%N :: acc)
  end.

(** The number a list of bytes spells, most significant first. *)
Definition number (bytes : list N) : N :=
  fold_left (fun a b => 256 * a + b)%N bytes 0%N.

(** The identifier of twelve bytes that spells [n]. *)
Definition ObjectId_of_N (n : N) : ObjectId := Oid (big_endian 12 n []).

(** ** Decimal text and zero padding, as [%04d] and [%02d] *)

Definition dec (n : N) : string := NilZero.string_of_uint (N.to_uint n).

Fixpoint zeros (k : nat) : string :=
  match k with O => "" | S k' => String "0" (zeros k') end.

Definition pad (w : nat) (n : N) : string :=
  let s := dec n in zeros (w - String.length s) ++ s.

Definition date_isoformat (d : date) : string :=
  pad 4 (d_year d) ++ "-" ++ pad 2 (d_month d) ++ "-" ++ pad 2 (d_day d).

Definition time_text (t : datetime) : string :=
  pad 2 (t_hour t) ++ ":" ++ pad 2 (t_minute t) ++ ":" ++ pad 2 (t_second t)
  ++ (if (t_microsecond t =? 0)%N then "" else "." ++ pad 6 (t_microsecond t)).

(** [datetime.isoformat(sep)]. *)
Definition datetime_format (sep : string) (t : datetime) : string :=
  date_isoformat (t_date t) ++ sep ++ time_text t.

Definition datetime_isoformat (t : datetime) : string := datetime_format "T" t.

(** [hasattr(v, "isoformat")]: dates and datetimes have the method. *)
Definition hasattr_isoformat (v : value) : bool :=
  match v with
  | VDate _ | VDateTime _ => true
  | _ => false
  end.

(** [v.isoformat()]; [None] stands for the [AttributeError] of a value
    without the method. *)
Definition isoformat (v : value) : option string :=
  match v with
  | VDate d => Some (date_isoformat d)
  | VDateTime t => Some (datetime_isoformat t)
  | _ => None
  end.

(** [str(v)]. *)
Definition str (v : value) : string :=
  match v with
  | VNone => "None"
  | VBool true => "True"
  | VBool false => "False"
  | VInt z => NilZero.string_of_int (Z.to_int z)
  | VStr s => s
  | VObjectId o => ObjectId_str o
  | VDate d => date_isoformat d
  | VDateTime t => datetime_format " " t
  end.

(** Truth value of an optional string: [None] and [""] are false. *)
Definition truthy_str (o : option string) : bool :=
  match o with
  | Some s => negb (String.eqb s "")
  | None => false
  end.

End Py.
Export Py.

(* ===================================================================== *)
(** * Dictionaries as shared objects *)
(* ===================================================================== *)

(** [serialize_doc] receives a reference to a dictionary and assigns to
    keys of a dictionary.  Whether it touches the caller's object is a
    question about references, so dictionaries live in a heap here. *)

Module Heap.

Definition loc := positive.
Abbreviation heap := (gmap loc (dict_of value)).

(** A Python reference to a record: [None] or a dictionary object. *)
Inductive pyref := RNone | RDict (l : loc).

(** State passing over the heap. *)
Definition H (A : Type) : Type := heap -> A * heap.

Definition ret {A} (a : A) : H A := fun h => (a, h).
Definition bind {A B} (m : H A) (k : A -> H B) : H B :=
  fun h => let '(a, h') := m h in k a h'.

Declare Scope heap_scope.
Delimit Scope heap_scope with heap.
Notation "'let*' x ':=' m 'in' k" := (bind m (fun x => k))
  (at level 10, x binder, m at level 100, k at level 200, only parsing)
  : heap_scope.
Local Open Scope heap_scope.

(** The dictionary an address holds. *)
Definition obj (l : loc) (h : heap) : dict_of value := h !!! l.

(** [not d] for a dictionary: it is empty. *)
Definition dict_falsy (l : loc) : H bool :=
  fun h => (bool_decide (obj l h = ∅), h).

(** [dict(d)]: a new object with the same items. *)
Definition dict_copy (l : loc) : H loc :=
  fun h => let l' := fresh (dom h) in (l', <[l' := obj l h]> h).

(** [k in d]. *)
Definition dict_contains (k : string) (l : loc) : H bool :=
  fun h => (bool_decide (is_Some (obj l h !! k)), h).

(** [d.pop(k)], called only when [k in d]. *)
Definition dict_pop (k : string) (l : loc) : H value :=
  fun h => (default VNone (obj l h !! k), <[l := delete k (obj l h)]> h).

(** [d[k] = v]. *)
Definition dict_setitem (k : string) (v : value) (l : loc) : H unit :=
  fun h => (tt, <[l := <[k := v]> (obj l h)]> h).

(** [list(d.items())]: a snapshot of the items. *)
Definition dict_items (l : loc) : H (list (string * value)) :=
  fun h => (map_to_list (obj l h), h).

(** A [for] loop over a list. *)
Fixpoint for_each {A} (xs : list A) (body : A -> H unit) : H unit :=
  match xs with
  | [] => ret tt
  | x :: xs' => let* _ := body x in for_each xs' body
  end.

(** The body of the loop of [serialize_doc]: [doc[k] = v.isoformat()]
    when [v] has the method, inside [try ... except Exception: pass]. *)
Definition convert (l : loc) (item : string * value) : H unit :=
  let '(k, v) := item in
  if hasattr_isoformat v
  then match isoformat v with
       | Some text => dict_setitem k (VStr text) l
       | None => ret tt
       end
  else ret tt.

(** [serialize_doc(doc)] of [main.py]. *)
Definition serialize_doc (doc : pyref) : H pyref :=
  match doc with
  | RNone => ret RNone
  | RDict l =>
      let* falsy := dict_falsy l in
      if falsy then ret (RDict l)
      else
        let* l' := dict_copy l in
        let* has_id := dict_contains "_id" l' in
        let* _ := (if has_id
                   then let* v := dict_pop "_id" l' in
                        dict_setitem "id" (VStr (str v)) l'
                   else ret tt) in
        let* items := dict_items l' in
        let* _ := for_each items (convert l') in
        ret (RDict l')
  end.

(** What a reference denotes: [None] or the items of its dictionary. *)
Definition deref (r : pyref) (h : heap) : option (dict_of value) :=
  match r with
  | RNone => None
  | RDict l => Some (obj l h)
  end.

(** A handler passes [serialize_doc] a record the driver has just built,
    an object nothing else refers to. *)
Definition serialize_fresh (d : option (dict_of value)) : option (dict_of value) :=
  match d with
  | None => None
  | Some d0 =>
      let '(r, h) := serialize_doc (RDict 1%positive) {[ 1%positive := d0 ]} in
      deref r h
  end.

End Heap.
Export Heap.

(* ===================================================================== *)
(** * The models of [schemas.py] and the partial models of [main.py] *)
(* ===================================================================== *)

Module Schemas.

Inductive Semester := Fall | Spring | Summer.

Inductive DayOfWeek := Monday | Tuesday | Wednesday | Thursday | Friday | Saturday.

#[export] Instance Semester_eq_dec : EqDecision Semester.
Proof. solve_decision. Defined.
#[export] Instance DayOfWeek_eq_dec : EqDecision DayOfWeek.
Proof. solve_decision. Defined.

(** The [str] value of a member. *)
Definition Semester_value (s : Semester) : string :=
  match s with Fall => "Fall" | Spring => "Spring" | Summer => "Summer" end.

Definition DayOfWeek_value (d : DayOfWeek) : string :=
  match d with
  | Monday => "Monday" | Tuesday => "Tuesday" | Wednesday => "Wednesday"
  | Thursday => "Thursday" | Friday => "Friday" | Saturday => "Saturday"
  end.

Definition Semester_members : list Semester := [Fall; Spring; Summer].
Definition DayOfWeek_members : list DayOfWeek :=
  [Monday; Tuesday; Wednesday; Thursday; Friday; Saturday].

(** [Semester(s)]: the member with that value, if there is one. *)
Definition Semester_of_str (s : string) : option Semester :=
  List.find (fun m => String.eqb (Semester_value m) s) Semester_members.

Definition DayOfWeek_of_str (s : string) : option DayOfWeek :=
  List.find (fun m => String.eqb (DayOfWeek_value m) s) DayOfWeek_members.

(** ** Validated models *)

Record Event := {
  ev_title : string;
  ev_description : option string;
  ev_date : date;
  ev_time : option string;
  ev_location : option string;
  ev_audience : option string;
  ev_link : option string }.

Record Course := {
  co_code : string;
  co_title : string;
  co_semester : Semester;
  co_year : Z;
  co_lecturer : option string;
  co_credits : option Z;
  co_description : option string }.

Record Timetable := {
  tt_semester : Semester;
  tt_year : Z;
  tt_day : DayOfWeek;
  tt_start_time : string;
  tt_end_time : string;
  tt_course_code : string;
  tt_venue : option string;
  tt_lecturer : option string;
  tt_notes : option string }.

(** ** Validation of a request body

    One entry of a [ValidationError]: the field and what is wrong with it. *)
Inductive error_kind :=
| Missing | StringType | IntType | EnumValue | GreaterThanEqual (b : Z) | LessThanEqual (b : Z).

Definition error : Type := string * error_kind.

(** The outcome of validating one field. *)
Definition checked (A : Type) : Type := list error + A.

Definition errors_of {A} (c : checked A) : list error :=
  match c with inl es => es | inr _ => [] end.

(** [x: str = Field(...)]. *)
Definition required_str (name : string) (body : dict_of value) : checked string :=
  match body !! name with
  | None => inl [(name, Missing)]
  | Some (VStr s) => inr s
  | Some _ => inl [(name, StringType)]
  end.

(** [x: Optional[str] = Field(None)]. *)
Definition optional_str (name : string) (body : dict_of value) : checked (option string) :=
  match body !! name with
  | None | Some VNone => inr None
  | Some (VStr s) => inr (Some s)
  | Some _ => inl [(name, StringType)]
  end.

(** The bounds [ge] and [le] of an integer field. *)
Definition bounded (name : string) (ge le : Z) (z : Z) : list error :=
  if z <? ge then [(name, GreaterThanEqual ge)]
  else if le <? z then [(name, LessThanEqual le)]
  else [].

Section Validation.

(** The conversion pydantic applies to the input of an [int] field: an
    integer is taken as it is, and in lax mode a numeric text, a boolean
    or a whole float is converted as well; [None] stands for the
    [int_type] or [int_parsing] error.  The conversion is the library's;
    it is a parameter here, and a property says what it assumes of it. *)
Variable to_int : value -> option Z.

(** [x: int = Field(..., ge=.., le=..)]. *)
Definition required_int (name : string) (ge le : Z) (body : dict_of value) : checked Z :=
  match body !! name with
  | None => inl [(name, Missing)]
  | Some v =>
      match to_int v with
      | Some z => match bounded name ge le z with [] => inr z | es => inl es end
      | None => inl [(name, IntType)]
      end
  end.

(** [x: Optional[int] = Field(default, ge=.., le=..)]. *)
Definition optional_int (name : string) (default : option Z) (ge le : Z)
    (body : dict_of value) : checked (option Z) :=
  match body !! name with
  | None => inr default
  | Some VNone => inr None
  | Some v =>
      match to_int v with
      | Some z =>
          match bounded name ge le z with [] => inr (Some z) | es => inl es end
      | None => inl [(name, IntType)]
      end
  end.

(** A required field of an enumeration type. *)
Definition required_enum {E} (of_str : string -> option E) (name : string)
    (body : dict_of value) : checked E :=
  match body !! name with
  | None => inl [(name, Missing)]
  | Some (VStr s) =>
      match of_str s with Some m => inr m | None => inl [(name, EnumValue)] end
  | Some _ => inl [(name, EnumValue)]
  end.

(** [Course.model_validate(body)]: the model, or every field's errors. *)
Definition Course_validate (body : dict_of value) : checked Course :=
  let code := required_str "code" body in
  let title := required_str "title" body in
  let semester := required_enum Semester_of_str "semester" body in
  let year := required_int "year" 2000 2100 body in
  let lecturer := optional_str "lecturer" body in
  let credits := optional_int "credits" (Some 3) 0 30 body in
  let description := optional_str "description" body in
  match code, title, semester, year, lecturer, credits, description with
  | inr c, inr t, inr s, inr y, inr l, inr cr, inr d =>
      inr {| co_code := c; co_title := t; co_semester := s; co_year := y;
             co_lecturer := l; co_credits := cr; co_description := d |}
  | _, _, _, _, _, _, _ =>
      inl (errors_of code ++ errors_of title ++ errors_of semester
           ++ errors_of year ++ errors_of lecturer ++ errors_of credits
           ++ errors_of description)%list
  end.

(** [Timetable.model_validate(body)]. *)
Definition Timetable_validate (body : dict_of value) : checked Timetable :=
  let semester := required_enum Semester_of_str "semester" body in
  let year := required_int "year" 2000 2100 body in
  let day := required_enum DayOfWeek_of_str "day" body in
  let start_time := required_str "start_time" body in
  let end_time := required_str "end_time" body in
  let course_code := required_str "course_code" body in
  let venue := optional_str "venue" body in
  let lecturer := optional_str "lecturer" body in
  let notes := optional_str "notes" body in
  match semester, year, day, start_time, end_time, course_code,
        venue, lecturer, notes with
  | inr s, inr y, inr d, inr st, inr en, inr cc, inr v, inr l, inr n =>
      inr {| tt_semester := s; tt_year := y; tt_day := d; tt_start_time := st;
             tt_end_time := en; tt_course_code := cc; tt_venue := v;
             tt_lecturer := l; tt_notes := n |}
  | _, _, _, _, _, _, _, _, _ =>
      inl (errors_of semester ++ errors_of year ++ errors_of day
           ++ errors_of start_time ++ errors_of end_time
           ++ errors_of course_code ++ errors_of venue
           ++ errors_of lecturer ++ errors_of notes)%list
  end.

End Validation.

(** The conversion in strict mode: an integer and nothing else. *)
Definition strict_int (v : value) : option Z :=
  match v with
  | VInt z => Some z
  | _ => None
  end.

(** ** Partial models of [main.py]: every field [Optional], default [None],
    no bound and no enumeration *)

Record EventUpdate := {
  eu_title : option string;
  eu_description : option string;
  eu_date : option string;
  eu_time : option string;
  eu_location : option string;
  eu_audience : option string;
  eu_link : option string }.

Record CourseUpdate := {
  cu_code : option string;
  cu_title : option string;
  cu_semester : option string;
  cu_year : option Z;
  cu_lecturer : option string;
  cu_credits : option Z;
  cu_description : option string }.

Record TimetableUpdate := {
  tu_semester : option string;
  tu_year : option Z;
  tu_day : option string;
  tu_start_time : option string;
  tu_end_time : option string;
  tu_course_code : option string;
  tu_venue : option string;
  tu_lecturer : option string;
  tu_notes : option string }.

(** ** [model_dump()] *)

Definition of_str (o : option string) : value :=
  match o with Some s => VStr s | None => VNone end.

Definition of_int (o : option Z) : value :=
  match o with Some z => VInt z | None => VNone end.

Definition Event_model_dump (p : Event) : dict_of value :=
  list_to_map
    [("title", VStr (ev_title p)); ("description", of_str (ev_description p));
     ("date", VDate (ev_date p)); ("time", of_str (ev_time p));
     ("location", of_str (ev_location p)); ("audience", of_str (ev_audience p));
     ("link", of_str (ev_link p))].

Definition Course_model_dump (p : Course) : dict_of value :=
  list_to_map
    [("code", VStr (co_code p)); ("title", VStr (co_title p));
     ("semester", VStr (Semester_value (co_semester p)));
     ("year", VInt (co_year p)); ("lecturer", of_str (co_lecturer p));
     ("credits", of_int (co_credits p));
     ("description", of_str (co_description p))].

Definition Timetable_model_dump (p : Timetable) : dict_of value :=
  list_to_map
    [("semester", VStr (Semester_value (tt_semester p)));
     ("year", VInt (tt_year p)); ("day", VStr (DayOfWeek_value (tt_day p)));
     ("start_time", VStr (tt_start_time p)); ("end_time", VStr (tt_end_time p));
     ("course_code", VStr (tt_course_code p)); ("venue", of_str (tt_venue p));
     ("lecturer", of_str (tt_lecturer p)); ("notes", of_str (tt_notes p))].

Definition EventUpdate_model_dump (p : EventUpdate) : dict_of value :=
  list_to_map
    [("title", of_str (eu_title p)); ("description", of_str (eu_description p));
     ("date", of_str (eu_date p)); ("time", of_str (eu_time p));
     ("location", of_str (eu_location p)); ("audience", of_str (eu_audience p));
     ("link", of_str (eu_link p))].

Definition CourseUpdate_model_dump (p : CourseUpdate) : dict_of value :=
  list_to_map
    [("code", of_str (cu_code p)); ("title", of_str (cu_title p));
     ("semester", of_str (cu_semester p)); ("year", of_int (cu_year p));
     ("lecturer", of_str (cu_lecturer p)); ("credits", of_int (cu_credits p));
     ("description", of_str (cu_description p))].

Definition TimetableUpdate_model_dump (p : TimetableUpdate) : dict_of value :=
  list_to_map
    [("semester", of_str (tu_semester p)); ("year", of_int (tu_year p));
     ("day", of_str (tu_day p)); ("start_time", of_str (tu_start_time p));
     ("end_time", of_str (tu_end_time p));
     ("course_code", of_str (tu_course_code p)); ("venue", of_str (tu_venue p));
     ("lecturer", of_str (tu_lecturer p)); ("notes", of_str (tu_notes p))].

End Schemas.
Export Schemas.

(* ===================================================================== *)
(** * The document store, as the handlers see it through the driver *)
(* ===================================================================== *)

Module Store.

Abbreviation document := (dict_of value).

(** The state behind the handle [db]: the records of every collection in
    insertion order, the clock the server reports in [isMaster], and
    whether the server can be reached.  With [Some msg] in [db_fault]
    every call of the driver raises an error with that message. *)
Record Database := {
  db_collections : dict_of (list document);
  db_localTime : value;
  db_fault : option string }.

(** The calls of the driver, as they are logged. *)
Inductive call :=
| Command (name : string)
| ListCollectionNames
| Find (collection : string) (query : document) (limit : option Z)
| FindOne (collection : string) (oid : ObjectId)
| InsertOne (collection : string) (doc : document)
| UpdateOne (collection : string) (oid : ObjectId) (set : document)
| DeleteOne (collection : string) (oid : ObjectId).

(** What a handler runs in: the handle [db] of [database.py] ([None] when
    the connection settings are missing), the process environment that
    [os.getenv] reads, and the log of the driver calls made so far. *)
Record World := {
  db : option Database;
  environ : dict_of string;
  calls : list call }.

(** How a computation ends: with a value, with an [HTTPException], or
    with any other exception. *)
Inductive outcome (A : Type) :=
| Ok (a : A)
| HTTPException (status_code : Z) (detail : string)
| Exception (message : string).
Arguments Ok {A} a.
Arguments HTTPException {A} status_code detail.
Arguments Exception {A} message.

Definition M (A : Type) : Type := World -> outcome A * World.

Definition ret {A} (a : A) : M A := fun w => (Ok a, w).

Definition bind {A B} (m : M A) (k : A -> M B) : M B :=
  fun w =>
    match m w with
    | (Ok a, w') => k a w'
    | (HTTPException c d, w') => (HTTPException c d, w')
    | (Exception e, w') => (Exception e, w')
    end.

Definition raise {A} (status_code : Z) (detail : string) : M A :=
  fun w => (HTTPException status_code detail, w).

Declare Scope handler_scope.
Delimit Scope handler_scope with handler.
Notation "'let*' x ':=' m 'in' k" := (bind m (fun x => k))
  (at level 10, x binder, m at level 100, k at level 200, only parsing)
  : handler_scope.
Local Open Scope handler_scope.

(** The document a call sends to the server. *)
Definition sent (c : call) : document :=
  match c with
  | Find _ query _ => query
  | InsertOne _ doc => doc
  | UpdateOne _ _ fields => fields
  | _ => ∅
  end.

(** BSON has integers of up to eight bytes. *)
Definition int64 (z : Z) : bool := (- 2 ^ 63 <=? z) && (z <? 2 ^ 63).

Definition fits (v : value) : bool :=
  match v with
  | VInt z => int64 z
  | _ => true
  end.

(** The encoder takes the document: every integer in it fits. *)
Definition encodable (doc : document) : bool :=
  bool_decide (map_Forall (fun _ v => fits v = true) doc).

Definition overflow : string := "BSON can only handle up to 8-byte ints".

(** One call of the driver on [db]: it is logged, fails when the server
    cannot be reached, raises [OverflowError] when the document it sends
    holds an integer of more than eight bytes, and otherwise answers from
    the database and may change it.  On [db = None] nothing is called:
    the attribute access itself raises. *)
Definition driver {A} (c : call) (f : Database -> A * Database) : M A :=
  fun w =>
    match db w with
    | None => (Exception "'NoneType' object has no attribute", w)
    | Some d =>
        let log := (calls w ++ [c])%list in
        match db_fault d with
        | Some msg =>
            (Exception msg, {| db := db w; environ := environ w; calls := log |})
        | None =>
            if encodable (sent c)
            then
              let '(a, d') := f d in
              (Ok a, {| db := Some d'; environ := environ w; calls := log |})
            else
              (Exception overflow,
               {| db := db w; environ := environ w; calls := log |})
        end
    end.

(** The records of a collection; one never written to has none. *)
Definition records (name : string) (d : Database) : list document :=
  default [] (db_collections d !! name).

Definition set_records (name : string) (docs : list document) (d : Database)
    : Database :=
  {| db_collections := <[name := docs]> (db_collections d);
     db_localTime := db_localTime d;
     db_fault := db_fault d |}.

(** The filter [{"_id": oid}]. *)
Definition has_id (oid : ObjectId) (doc : document) : bool :=
  bool_decide (doc !! "_id" = Some (VObjectId oid)).

(** A filter of exact matches: every field of the query is in the record
    with that value. *)
Definition matches (query doc : document) : bool :=
  bool_decide (map_Forall (fun k v => doc !! k = Some v) query).

(** [{"$set": fields}] applied to the first record with the identifier. *)
Fixpoint set_first (oid : ObjectId) (fields : document) (docs : list document)
    : option (list document) :=
  match docs with
  | [] => None
  | doc :: rest =>
      if has_id oid doc then Some ((fields ∪ doc) :: rest)
      else cons doc <$> set_first oid fields rest
  end.

(** The first record with the identifier removed. *)
Fixpoint remove_first (oid : ObjectId) (docs : list document)
    : option (list document) :=
  match docs with
  | [] => None
  | doc :: rest =>
      if has_id oid doc then Some rest
      else cons doc <$> remove_first oid rest
  end.

(** [db.command("isMaster").get("localTime")]. *)
Definition command_isMaster_localTime : M value :=
  driver (Command "isMaster") (fun d => (db_localTime d, d)).

(** [db.list_collection_names()]. *)
Definition list_collection_names : M (list string) :=
  driver ListCollectionNames (fun d => ((map_to_list (db_collections d)).*1, d)).

(** [db[name].find_one({"_id": oid})]. *)
Definition find_one (name : string) (oid : ObjectId) : M (option document) :=
  driver (FindOne name oid) (fun d => (List.find (has_id oid) (records name d), d)).

(** [db[name].update_one({"_id": oid}, {"$set": fields}).matched_count]. *)
Definition update_one (name : string) (oid : ObjectId) (fields : document) : M Z :=
  driver (UpdateOne name oid fields) (fun d =>
    match set_first oid fields (records name d) with
    | Some docs => (1, set_records name docs d)
    | None => (0, d)
    end).

(** [db[name].delete_one({"_id": oid}).deleted_count]. *)
Definition delete_one (name : string) (oid : ObjectId) : M Z :=
  driver (DeleteOne name oid) (fun d =>
    match remove_first oid (records name d) with
    | Some docs => (1, set_records name docs d)
    | None => (0, d)
    end).

(** [list(db[name].find(query).limit(n))]. *)
Definition find (name : string) (query : document) (limit : option Z)
    : M (list document) :=
  driver (Find name query limit) (fun d =>
    let found := List.filter (matches query) (records name d) in
    (match limit with
     | Some n => take (Z.to_nat n) found
     | None => found
     end, d)).

(** The identifiers of the records of a list. *)
Definition ids (docs : list document) : list (option value) :=
  (fun doc : document => doc !! "_id") <$> docs.

(** The numbers the [ObjectId]s in use spell. *)
Definition used (docs : list document) : list N :=
  omap (fun doc : document =>
          match doc !! "_id" with
          | Some (VObjectId (Oid binary)) => Some (number binary)
          | _ => None
          end) docs.

(** A new identifier from a number: twelve bytes, and more only for a
    number that twelve bytes cannot hold, so that different numbers give
    different identifiers. *)
Definition new_id (n : N) : ObjectId :=
  Oid (big_endian (if (n <? 2 ^ 96)%N then 12 else N.to_nat n) n []).

(** [db[name].insert_one(doc).inserted_id]: the record gets an [ObjectId]
    no record of the collection has, and goes last. *)
Definition insert_one (name : string) (doc : document) : M ObjectId :=
  driver (InsertOne name doc) (fun d =>
    let oid := new_id (fresh (used (records name d))) in
    (oid, set_records name (records name d ++ [<["_id" := VObjectId oid]> doc]) d)).

(** Modelled from the spec: [get_documents] of [database.py], which is not
    among the sources.  "filter is a mapping of field name to exact-match
    value; when filter is empty, all records in the collection are
    returned, oldest first by natural insertion order unless a limit
    truncates the result. [limit], when provided, caps the returned count;
    omitted means unbounded." *)
Definition get_documents (name : string) (query : document) (limit : option Z)
    : M (list document) :=
  find name query limit.

(** Modelled from the spec: [create_document] of [database.py], which is
    not among the sources.  "inserts the entity, returns the newly assigned
    unique identifier."  The identifier comes back as text: the handlers
    pass it to [ObjectId]. *)
Definition create_document (name : string) (data : document) : M string :=
  let* oid := insert_one name data in
  ret (ObjectId_str oid).

End Store.
Export Store.

(* ===================================================================== *)
(** * The handlers of [main.py] *)
(* ===================================================================== *)

Module Handlers.

Local Open Scope handler_scope.

(** [serialize_doc] on one record of a result. *)
Definition serialize_record (doc : document) : document :=
  default ∅ (serialize_fresh (Some doc)).

Definition ensure_db_available : M unit :=
  fun w =>
    match db w with
    | None =>
        (HTTPException 500
           "Database not available. Configure DATABASE_URL and DATABASE_NAME.", w)
    | Some _ => (Ok tt, w)
    end.

(** [try: oid = ObjectId(s) except Exception: raise HTTPException(400, detail)]. *)
Definition ObjectId_or_400 (s : string) (detail : string) : M ObjectId :=
  match ObjectId_of_str s with
  | Some oid => ret oid
  | None => raise 400 detail
  end.

(** [ObjectId(s)] outside a [try]. *)
Definition ObjectId_or_fail (s : string) : M ObjectId :=
  match ObjectId_of_str s with
  | Some oid => ret oid
  | None => fun w => (Exception "InvalidId", w)
  end.

(** [{k: v for k, v in dump.items() if v is not None}]. *)
Definition not_None (dump : document) : document :=
  filter (fun kv => kv.2 ≠ VNone) dump.

(** ** Root and health *)

Definition read_root : M string := ret "Gender & Youth Department API running".

(** The dictionary [test_database] fills in; its keys are fixed. *)
Record TestResponse := {
  r_backend : string;
  r_database : string;
  r_database_url : string;
  r_database_name : string;
  r_connection_status : string;
  r_collections : list string }.

Definition with_database (s : string) (r : TestResponse) : TestResponse :=
  {| r_backend := r_backend r; r_database := s;
     r_database_url := r_database_url r; r_database_name := r_database_name r;
     r_connection_status := r_connection_status r;
     r_collections := r_collections r |}.

Definition with_connection_status (s : string) (r : TestResponse) : TestResponse :=
  {| r_backend := r_backend r; r_database := r_database r;
     r_database_url := r_database_url r; r_database_name := r_database_name r;
     r_connection_status := s; r_collections := r_collections r |}.

Definition with_collections (l : list string) (r : TestResponse) : TestResponse :=
  {| r_backend := r_backend r; r_database := r_database r;
     r_database_url := r_database_url r; r_database_name := r_database_name r;
     r_connection_status := r_connection_status r; r_collections := l |}.

(** The two [except] clauses of [test_database], entered with the
    dictionary as the [try] block left it. *)
Definition excepted {A} (response : TestResponse) (o : outcome A) : TestResponse :=
  match o with
  | Ok _ => response
  | HTTPException _ detail => with_database ("❌ " ++ detail) response
  | Exception msg =>
      with_database ("❌ Error: " ++ String.substring 0 80 msg) response
  end.

Definition test_database : M TestResponse :=
  fun w =>
    let response :=
      {| r_backend := "✅ Running";
         r_database := "❌ Not Available";
         r_database_url :=
           if truthy_str (environ w !! "DATABASE_URL") then "✅ Set" else "❌ Not Set";
         r_database_name :=
           if truthy_str (environ w !! "DATABASE_NAME") then "✅ Set" else "❌ Not Set";
         r_connection_status := "Not Connected";
         r_collections := [] |} in
    match ensure_db_available w with
    | (Ok _, w1) =>
        let response := with_connection_status "Connected" response in
        let response := with_database "✅ Connected & Working" response in
        match list_collection_names w1 with
        | (Ok names, w2) => (Ok (with_collections names response), w2)
        | (failed, w2) => (Ok (excepted response failed), w2)
        end
    | (failed, w1) => (Ok (excepted response failed), w1)
    end.

(** ** Events *)

Definition list_events (limit : option Z) : M (list document) :=
  let* _ := ensure_db_available in
  let* docs := get_documents "event" ∅ limit in
  ret (serialize_record <$> docs).

Definition create_event (payload : Event) : M (option document) :=
  let* _ := ensure_db_available in
  let* new_id := create_document "event" (Event_model_dump payload) in
  let* oid := ObjectId_or_fail new_id in
  let* doc := find_one "event" oid in
  ret (serialize_fresh doc).

Definition update_event (event_id : string) (payload : EventUpdate)
    : M (option document) :=
  let* _ := ensure_db_available in
  let* oid := ObjectId_or_400 event_id "Invalid event id" in
  let update_data := not_None (EventUpdate_model_dump payload) in
  if decide (update_data = ∅) then raise 400 "No fields to update"
  else
    let* now := command_isMaster_localTime in
    let update_data := <["updated_at" := now]> update_data in
    let* matched_count := update_one "event" oid update_data in
    if matched_count =? 0 then raise 404 "Event not found"
    else
      let* doc := find_one "event" oid in
      ret (serialize_fresh doc).

Definition delete_event (event_id : string) : M bool :=
  let* _ := ensure_db_available in
  let* oid := ObjectId_or_400 event_id "Invalid event id" in
  let* deleted_count := delete_one "event" oid in
  if deleted_count =? 0 then raise 404 "Event not found"
  else ret true.

(** ** Courses *)

Definition list_courses (semester : option string) (year : option Z)
    (limit : option Z) : M (list document) :=
  let* _ := ensure_db_available in
  let query : document := ∅ in
  let query := if truthy_str semester
               then <["semester" := of_str semester]> query else query in
  let query := match year with
               | Some y => <["year" := VInt y]> query
               | None => query
               end in
  let* docs := get_documents "course" query limit in
  ret (serialize_record <$> docs).

Definition create_course (payload : Course) : M (option document) :=
  let* _ := ensure_db_available in
  let* new_id := create_document "course" (Course_model_dump payload) in
  let* oid := ObjectId_or_fail new_id in
  let* doc := find_one "course" oid in
  ret (serialize_fresh doc).

Definition update_course (course_id : string) (payload : CourseUpdate)
    : M (option document) :=
  let* _ := ensure_db_available in
  let* oid := ObjectId_or_400 course_id "Invalid course id" in
  let update_data := not_None (CourseUpdate_model_dump payload) in
  if decide (update_data = ∅) then raise 400 "No fields to update"
  else
    let* now := command_isMaster_localTime in
    let update_data := <["updated_at" := now]> update_data in
    let* matched_count := update_one "course" oid update_data in
    if matched_count =? 0 then raise 404 "Course not found"
    else
      let* doc := find_one "course" oid in
      ret (serialize_fresh doc).

Definition delete_course (course_id : string) : M bool :=
  let* _ := ensure_db_available in
  let* oid := ObjectId_or_400 course_id "Invalid course id" in
  let* deleted_count := delete_one "course" oid in
  if deleted_count =? 0 then raise 404 "Course not found"
  else ret true.

(** ** Timetable *)

Definition list_timetable (semester : option string) (year : option Z)
    (day : option string) (limit : option Z) : M (list document) :=
  let* _ := ensure_db_available in
  let query : document := ∅ in
  let query := if truthy_str semester
               then <["semester" := of_str semester]> query else query in
  let query := match year with
               | Some y => <["year" := VInt y]> query
               | None => query
               end in
  let query := if truthy_str day
               then <["day" := of_str day]> query else query in
  let* docs := get_documents "timetable" query limit in
  let results := serialize_record <$> docs in
  ret results.

Definition create_timetable (payload : Timetable) : M (option document) :=
  let* _ := ensure_db_available in
  let* new_id := create_document "timetable" (Timetable_model_dump payload) in
  let* oid := ObjectId_or_fail new_id in
  let* doc := find_one "timetable" oid in
  ret (serialize_fresh doc).

Definition update_timetable (slot_id : string) (payload : TimetableUpdate)
    : M (option document) :=
  let* _ := ensure_db_available in
  let* oid := ObjectId_or_400 slot_id "Invalid timetable id" in
  let update_data := not_None (TimetableUpdate_model_dump payload) in
  if decide (update_data = ∅) then raise 400 "No fields to update"
  else
    let* now := command_isMaster_localTime in
    let update_data := <["updated_at" := now]> update_data in
    let* matched_count := update_one "timetable" oid update_data in
    if matched_count =? 0 then raise 404 "Timetable slot not found"
    else
      let* doc := find_one "timetable" oid in
      ret (serialize_fresh doc).

Definition delete_timetable (slot_id : string) : M bool :=
  let* _ := ensure_db_available in
  let* oid := ObjectId_or_400 slot_id "Invalid timetable id" in
  let* deleted_count := delete_one "timetable" oid in
  if deleted_count =? 0 then raise 404 "Timetable slot not found"
  else ret true.

(** ** The routes

    The requests the application answers, and what it sends back.
    [GET /schema] renders the declarations of the models and reads no
    state; it is left out. *)
Inductive request :=
| GetRoot
| GetTest
| GetEvents (limit : option Z)
| PostEvent (payload : Event)
| PutEvent (event_id : string) (payload : EventUpdate)
| DeleteEvent (event_id : string)
| GetCourses (semester : option string) (year : option Z) (limit : option Z)
| PostCourse (payload : Course)
| PutCourse (course_id : string) (payload : CourseUpdate)
| DeleteCourse (course_id : string)
| GetTimetable (semester : option string) (year : option Z)
    (day : option string) (limit : option Z)
| PostTimetable (payload : Timetable)
| PutTimetable (slot_id : string) (payload : TimetableUpdate)
| DeleteTimetable (slot_id : string).

Inductive response_body :=
| Message (text : string)
| Diagnostic (response : TestResponse)
| Records (docs : list document)
| Record_ (doc : option document)
| Success (flag : bool).

Definition respond {A} (wrap : A -> response_body) (m : M A) : M response_body :=
  let* a := m in ret (wrap a).

Definition app (r : request) : M response_body :=
  match r with
  | GetRoot => respond Message read_root
  | GetTest => respond Diagnostic test_database
  | GetEvents limit => respond Records (list_events limit)
  | PostEvent payload => respond Record_ (create_event payload)
  | PutEvent event_id payload => respond Record_ (update_event event_id payload)
  | DeleteEvent event_id => respond Success (delete_event event_id)
  | GetCourses semester year limit =>
      respond Records (list_courses semester year limit)
  | PostCourse payload => respond Record_ (create_course payload)
  | PutCourse course_id payload =>
      respond Record_ (update_course course_id payload)
  | DeleteCourse course_id => respond Success (delete_course course_id)
  | GetTimetable semester year day limit =>
      respond Records (list_timetable semester year day limit)
  | PostTimetable payload => respond Record_ (create_timetable payload)
  | PutTimetable slot_id payload =>
      respond Record_ (update_timetable slot_id payload)
  | DeleteTimetable slot_id => respond Success (delete_timetable slot_id)
  end.

(** The three entity types, their collections, and the update and delete
    routes by entity. *)
Inductive entity := EventEntity | CourseEntity | TimetableEntity.

Definition collection_of (e : entity) : string :=
  match e with
  | EventEntity => "event"
  | CourseEntity => "course"
  | TimetableEntity => "timetable"
  end.

Inductive update_payload :=
| OfEvent (payload : EventUpdate)
| OfCourse (payload : CourseUpdate)
| OfTimetable (payload : TimetableUpdate).

Definition entity_of (p : update_payload) : entity :=
  match p with
  | OfEvent _ => EventEntity
  | OfCourse _ => CourseEntity
  | OfTimetable _ => TimetableEntity
  end.

Definition model_dump (p : update_payload) : document :=
  match p with
  | OfEvent payload => EventUpdate_model_dump payload
  | OfCourse payload => CourseUpdate_model_dump payload
  | OfTimetable payload => TimetableUpdate_model_dump payload
  end.

Definition update_route (id : string) (p : update_payload) : M (option document) :=
  match p with
  | OfEvent payload => update_event id payload
  | OfCourse payload => update_course id payload
  | OfTimetable payload => update_timetable id payload
  end.

Definition delete_route (e : entity) (id : string) : M bool :=
  match e with
  | EventEntity => delete_event id
  | CourseEntity => delete_course id
  | TimetableEntity => delete_timetable id
  end.

End Handlers.
Export Handlers.

(* ===================================================================== *)
(** * What the properties are stated with *)
(* ===================================================================== *)

Module Spec.

Local Open Scope list_scope.

(** ** Serialization *)

(** A value as the serialization helper is to render it: a date or a
    datetime as its ISO 8601 text, anything else as it is. *)
Definition rendered (v : value) : value :=
  match v with
  | VDate d => VStr (date_isoformat d)
  | VDateTime t => VStr (datetime_isoformat t)
  | other => other
  end.

(** The record with [_id] renamed to [id] and turned into text. *)
Definition renamed (doc : document) : document :=
  match doc !! "_id" with
  | Some v => <["id" := VStr (str v)]> (delete "_id" doc)
  | None => doc
  end.

(** The JSON-safe form of a record. *)
Definition serialized (doc : document) : document := rendered <$> renamed doc.

(** One step of the conversion loop, on the items of the dictionary. *)
Definition converted (m : document) (item : string * value) : document :=
  let '(k, v) := item in
  if hasattr_isoformat v
  then match isoformat v with
       | Some text => <[k := VStr text]> m
       | None => m
       end
  else m.

(** ** Updates and deletes, case by case *)

(** Two lists of records that agree, record by record, on every field
    outside [keys]. *)
Definition only_changes (keys : list string) (before after : list document) : Prop :=
  Forall2 (fun doc doc' : document => forall k, k ∉ keys -> doc' !! k = doc !! k)
          before after.

(** The status code the client receives. *)
Definition status {A} (o : outcome A) : Z :=
  match o with
  | Ok _ => 200
  | HTTPException code _ => code
  | Exception _ => 500
  end.

(** The world after the driver calls [cs], with the database [d]. *)
Definition logged (cs : list call) (d : Database) (w : World) : World :=
  {| db := Some d; environ := environ w; calls := calls w ++ cs |}.

Definition unavailable : string :=
  "Database not available. Configure DATABASE_URL and DATABASE_NAME.".

(** What an update route does, case by case. *)
Definition update_result (name invalid not_found : string) (dump : document)
    (id : string) (w : World) : outcome (option document) * World :=
  match db w with
  | None => (HTTPException 500 unavailable, w)
  | Some d =>
      match ObjectId_of_str id with
      | None => (HTTPException 400 invalid, w)
      | Some oid =>
          if decide (not_None dump = ∅)
          then (HTTPException 400 "No fields to update", w)
          else
            match db_fault d with
            | Some msg => (Exception msg, logged [Command "isMaster"] d w)
            | None =>
                let fields := <["updated_at" := db_localTime d]> (not_None dump) in
                if encodable fields
                then
                  match set_first oid fields (records name d) with
                  | None =>
                      (HTTPException 404 not_found,
                       logged [Command "isMaster"; UpdateOne name oid fields] d w)
                  | Some docs =>
                      (Ok (serialized <$> List.find (has_id oid) docs),
                       logged [Command "isMaster"; UpdateOne name oid fields;
                               FindOne name oid]
                              (set_records name docs d) w)
                  end
                else
                  (Exception overflow,
                   logged [Command "isMaster"; UpdateOne name oid fields] d w)
            end
      end
  end.

(** What a delete route does, case by case. *)
Definition delete_result (name invalid not_found : string)
    (id : string) (w : World) : outcome bool * World :=
  match db w with
  | None => (HTTPException 500 unavailable, w)
  | Some d =>
      match ObjectId_of_str id with
      | None => (HTTPException 400 invalid, w)
      | Some oid =>
          match db_fault d with
          | Some msg => (Exception msg, logged [DeleteOne name oid] d w)
          | None =>
              match remove_first oid (records name d) with
              | None =>
                  (HTTPException 404 not_found, logged [DeleteOne name oid] d w)
              | Some docs =>
                  (Ok true,
                   logged [DeleteOne name oid] (set_records name docs d) w)
              end
          end
      end
  end.

Definition invalid_detail (e : entity) : string :=
  match e with
  | EventEntity => "Invalid event id"
  | CourseEntity => "Invalid course id"
  | TimetableEntity => "Invalid timetable id"
  end.

Definition not_found_detail (e : entity) : string :=
  match e with
  | EventEntity => "Event not found"
  | CourseEntity => "Course not found"
  | TimetableEntity => "Timetable slot not found"
  end.

(** The status a request gets while the identifier or the payload is
    refused: 400 with a database handle, 500 without one. *)
Definition refusal (w : World) : Z :=
  match db w with Some _ => 400 | None => 500 end.

(** ** Request bodies *)

(** A field of the body that holds a text. *)
Definition has_text (name : string) (body : dict_of value) : Prop :=
  exists s, body !! name = Some (VStr s).

(** An optional text field: absent, null, or a text. *)
Definition may_have_text (name : string) (body : dict_of value) : Prop :=
  body !! name = None \/ body !! name = Some VNone \/ has_text name body.

(** The fields of a Course body other than [year] are valid. *)
Definition course_rest_valid (body : dict_of value) : Prop :=
  has_text "code" body /\ has_text "title" body /\
  (exists m, body !! "semester" = Some (VStr (Semester_value m))) /\
  may_have_text "lecturer" body /\
  (body !! "credits" = None \/ body !! "credits" = Some VNone \/
   exists z, body !! "credits" = Some (VInt z) /\ 0 <= z <= 30) /\
  may_have_text "description" body.

(** The fields of a Timetable body other than [year] are valid. *)
Definition slot_rest_valid (body : dict_of value) : Prop :=
  (exists m, body !! "semester" = Some (VStr (Semester_value m))) /\
  (exists m, body !! "day" = Some (VStr (DayOfWeek_value m))) /\
  has_text "start_time" body /\ has_text "end_time" body /\
  has_text "course_code" body /\
  may_have_text "venue" body /\ may_have_text "lecturer" body /\
  may_have_text "notes" body.

(** ** Update payloads *)

(** The course update that sets a semester, a year and the credits, and
    the timetable update that sets a semester, a year and a day. *)
Definition course_change (s : string) (y c : Z) : CourseUpdate :=
  {| cu_code := None; cu_title := None; cu_semester := Some s;
     cu_year := Some y; cu_lecturer := None; cu_credits := Some c;
     cu_description := None |}.

Definition slot_change (s : string) (y : Z) (day : string) : TimetableUpdate :=
  {| tu_semester := Some s; tu_year := Some y; tu_day := Some day;
     tu_start_time := None; tu_end_time := None; tu_course_code := None;
     tu_venue := None; tu_lecturer := None; tu_notes := None |}.

(** ** Identifiers *)

(** How the records of a collection change in one request without a
    record changing its identifier: the identifiers stay as they are,
    position by position; or one record goes; or a record with an
    identifier not yet in use comes last. *)
Inductive id_step : list document -> list document -> Prop :=
| ids_kept docs docs' :
    ids docs' = ids docs -> id_step docs docs'
| record_removed docs1 doc docs2 :
    id_step (docs1 ++ doc :: docs2) (docs1 ++ docs2)
| record_created docs doc :
    is_Some (doc !! "_id") -> doc !! "_id" ∉ ids docs ->
    id_step docs (docs ++ [doc]).

(** The [$set] document of an update call carries no [_id]. *)
Definition sets_no_id (c : call) : Prop :=
  match c with
  | UpdateOne _ _ fields => fields !! "_id" = None
  | _ => True
  end.

(** The driver calls a computation adds to the log set no [_id]. *)
Definition logs_no_id (w w' : World) : Prop :=
  exists new, calls w' = calls w ++ new /\ Forall sets_no_id new.

(** A step that leaves the database as it is. *)
Definition quiet (w w' : World) : Prop :=
  logs_no_id w w' /\ db w' = db w.

(** A step in which no record changes its identifier. *)
Definition keeps_ids (w w' : World) : Prop :=
  logs_no_id w w' /\
  match db w, db w' with
  | Some d, Some d' => forall name, id_step (records name d) (records name d')
  | None, None => True
  | _, _ => False
  end.

Definition reads_only {A} (m : M A) : Prop :=
  forall w o w', m w = (o, w') -> quiet w w'.

Definition respects {A} (m : M A) : Prop :=
  forall w o w', m w = (o, w') -> keeps_ids w w'.

(** ** Notions for the routes together *)

(** An identifier as the driver makes them: twelve bytes. *)
Definition twelve_bytes (o : ObjectId) : Prop :=
  let 'Oid binary := o in
  length binary = 12%nat /\ Forall (fun b => (b < 256)%N) binary.

(** A record the JSON encoder takes as it is: no date and no datetime. *)
Definition no_raw_date (doc : document) : Prop :=
  forall k v, doc !! k = Some v -> hasattr_isoformat v = false.

(** [doc] has the identifier and no record of [before] has it. *)
Definition first_with (oid : ObjectId) (before : list document) (doc : document)
    : Prop :=
  Forall (fun doc0 : document => doc0 !! "_id" ≠ Some (VObjectId oid)) before /\
  doc !! "_id" = Some (VObjectId oid).

(** The routes that need the store. *)
Definition data_route (r : request) : bool :=
  match r with
  | GetRoot | GetTest => false
  | _ => true
  end.

(** The [GET] routes. *)
Definition reading (r : request) : bool :=
  match r with
  | GetRoot | GetTest | GetEvents _ | GetCourses _ _ _ | GetTimetable _ _ _ _ => true
  | _ => false
  end.

(** The collection a route works on. *)
Definition target (r : request) : option string :=
  match r with
  | GetRoot | GetTest => None
  | GetEvents _ | PostEvent _ | PutEvent _ _ | DeleteEvent _ => Some "event"
  | GetCourses _ _ _ | PostCourse _ | PutCourse _ _ | DeleteCourse _ => Some "course"
  | GetTimetable _ _ _ _ | PostTimetable _ | PutTimetable _ _
  | DeleteTimetable _ => Some "timetable"
  end.

(** The records a response shows. *)
Definition shown (b : response_body) : list document :=
  match b with
  | Records docs => docs
  | Record_ (Some doc) => [doc]
  | _ => []
  end.

(** Every value a computation returns satisfies [P]. *)
Definition returns {A} (P : A -> Prop) (m : M A) : Prop :=
  forall w a w', m w = (Ok a, w') -> P a.

(** Every run of a computation relates the worlds by [R]. *)
Definition preserves {A} (R : World -> World -> Prop) (m : M A) : Prop :=
  forall w o w', m w = (o, w') -> R w w'.

(** Only the collection [t] may differ between two worlds. *)
Definition confined (t : option string) (w w' : World) : Prop :=
  match db w, db w' with
  | Some d, Some d' =>
      forall name, t ≠ Some name -> records name d' = records name d
  | None, None => True
  | _, _ => False
  end.

(** The status codes a route can answer with. *)
Definition possible (r : request) : list Z :=
  match r with
  | GetRoot | GetTest => [200]
  | GetEvents _ | GetCourses _ _ _ | GetTimetable _ _ _ _
  | PostEvent _ | PostCourse _ | PostTimetable _ => [200; 500]
  | _ => [200; 400; 404; 500]
  end.

(** Every status a computation ends with is in [codes]. *)
Definition answers {A} (codes : list Z) (m : M A) : Prop :=
  forall w, status (m w).1 ∈ codes.

End Spec.
Export Spec.

(* ===================================================================== *)
(** * Sample data *)
(* ===================================================================== *)

Module Samples.

Definition id1 : string := "000000000000000000000001".
Definition id2 : string := "000000000000000000000002".
Definition id3 : string := "000000000000000000000003".

(** Sixteen digits and eight blanks: [bytes.fromhex] reads eight bytes. *)
Definition spaced : string := "00 00 00 00 00 00 00 00 ".

(** The clock of the server. *)
Definition noon : value := VDateTime (DateTime (Date 2025 3 2) 12 0 0 0).

Definition open_day : document :=
  <["_id" := VObjectId (ObjectId_of_N 1)]>
    (Event_model_dump
       {| ev_title := "Open Day"; ev_description := None;
          ev_date := Date 2025 3 1; ev_time := None; ev_location := None;
          ev_audience := None; ev_link := None |}).

Definition gyd101 : document :=
  <["_id" := VObjectId (ObjectId_of_N 1)]>
    (Course_model_dump
       {| co_code := "GYD101"; co_title := "Gender Studies"; co_semester := Fall;
          co_year := 2025; co_lecturer := None; co_credits := Some 3;
          co_description := None |}).

Definition gyd102 : document :=
  <["_id" := VObjectId (ObjectId_of_N 2)]>
    (Course_model_dump
       {| co_code := "GYD102"; co_title := "Youth Policy"; co_semester := Spring;
          co_year := 2025; co_lecturer := None; co_credits := Some 3;
          co_description := None |}).

Definition monday_slot : document :=
  <["_id" := VObjectId (ObjectId_of_N 1)]>
    (Timetable_model_dump
       {| tt_semester := Fall; tt_year := 2025; tt_day := Monday;
          tt_start_time := "09:00"; tt_end_time := "10:30";
          tt_course_code := "GYD101"; tt_venue := None; tt_lecturer := None;
          tt_notes := None |}).

Definition store1 : Database :=
  {| db_collections :=
       {[ "event" := [open_day]; "course" := [gyd101; gyd102];
          "timetable" := [monday_slot] ]};
     db_localTime := noon;
     db_fault := None |}.

(** A configured application, and one without connection settings. *)
Definition world1 : World := {| db := Some store1; environ := ∅; calls := [] |}.
Definition unconfigured : World := {| db := None; environ := ∅; calls := [] |}.

(** An application whose server does not answer. *)
Definition timed_out : string := "localhost:27017: [Errno 111] Connection refused".

Definition unreachable : World :=
  {| db := Some {| db_collections := db_collections store1;
                   db_localTime := noon;
                   db_fault := Some timed_out |};
     environ := ∅; calls := [] |}.

Definition no_fields : EventUpdate :=
  {| eu_title := None; eu_description := None; eu_date := None; eu_time := None;
     eu_location := None; eu_audience := None; eu_link := None |}.

Definition main_hall : EventUpdate :=
  {| eu_title := None; eu_description := None; eu_date := None; eu_time := None;
     eu_location := Some "Main Hall"; eu_audience := None; eu_link := None |}.

(** A request body for a course, without its year. *)
Definition course_body : dict_of value :=
  list_to_map [("code", VStr "GYD101"); ("title", VStr "Gender Studies");
               ("semester", VStr "Fall")].

(** A request body for a timetable slot, without its year. *)
Definition slot_body : dict_of value :=
  list_to_map [("semester", VStr "Fall"); ("day", VStr "Monday");
               ("start_time", VStr "09:00"); ("end_time", VStr "10:30");
               ("course_code", VStr "GYD101")].

(** What the update of [open_day] with [main_hall] sets, stores and logs. *)
Definition main_hall_fields : document :=
  list_to_map [("location", VStr "Main Hall"); ("updated_at", noon)].

Definition open_day_moved : document := main_hall_fields ∪ open_day.

Definition world1_moved : World :=
  {| db := Some (set_records "event" [open_day_moved] store1);
     environ := ∅;
     calls := [Command "isMaster"; UpdateOne "event" (ObjectId_of_N 1) main_hall_fields;
               FindOne "event" (ObjectId_of_N 1)] |}.

(** The world after [open_day] is deleted. *)
Definition world1_deleted : World :=
  {| db := Some (set_records "event" [] store1);
     environ := ∅;
     calls := [DeleteOne "event" (ObjectId_of_N 1)] |}.

(** A heap where the caller holds [open_day] at address 1. *)
Definition heap1 : heap := {[ 1%positive := open_day ]}.

End Samples.
Export Samples.


(* ===================================================================== *)
(** * Properties *)
(* ===================================================================== *)

Open Scope list_scope.

(** Decide a closed equation by evaluating both sides. *)
Ltac evaluate :=
  lazymatch goal with
  | |- ?l = ?r => vm_cast_no_check (@eq_refl _ r)
  end.

(** ** Text of identifiers and dates *)

Example ObjectId_of_str_ok :
  ObjectId_of_str "65f0a1b2c3d4e5f601234567"
  = Some (ObjectId_of_N 31548891787298706453514372455%N).
Proof. evaluate. Qed.

Example ObjectId_str_ok :
  ObjectId_str (ObjectId_of_N 31548891787298706453514372455%N) = "65f0a1b2c3d4e5f601234567".
Proof. evaluate. Qed.

Example ObjectId_of_str_short : ObjectId_of_str "abc" = None.
Proof. reflexivity. Qed.

Example date_isoformat_ok : isoformat (VDate (Date 2025 3 1)) = Some "2025-03-01".
Proof. evaluate. Qed.

Example datetime_isoformat_ok :
  isoformat (VDateTime (DateTime (Date 2025 3 1) 9 5 0 1500))
  = Some "2025-03-01T09:05:00.001500".
Proof. evaluate. Qed.

Example serialize_fresh_event :
  serialize_fresh (Some (list_to_map
    [("_id", VObjectId (ObjectId_of_N 5)); ("title", VStr "Open Day");
     ("date", VDate (Date 2025 3 1))]))
  = Some (list_to_map
    [("id", VStr "000000000000000000000005"); ("title", VStr "Open Day");
     ("date", VStr "2025-03-01")]).
Proof. evaluate. Qed.

(** ** [serialize_doc] *)

Section SerializeDoc.

Implicit Types (h : heap) (l : loc) (m doc : document) (k : string) (v : value).

Lemma obj_lookup h l m : h !! l = Some m -> obj l h = m.
Proof. intros Hl. unfold obj. by rewrite lookup_total_alt, Hl. Qed.

Lemma obj_insert h l m : obj l (<[l := m]> h) = m.
Proof. apply obj_lookup, lookup_insert_eq. Qed.

Lemma rendered_conv v :
  (if hasattr_isoformat v
   then match isoformat v with Some text => Some (VStr text) | None => Some v end
   else Some v) = Some (rendered v).
Proof. by destruct v. Qed.

Lemma converted_lookup_ne m k v k' :
  k ≠ k' -> converted m (k, v) !! k' = m !! k'.
Proof.
  intros Hne. unfold converted.
  destruct (hasattr_isoformat v); [|done].
  destruct (isoformat v); [|done]. by rewrite lookup_insert_ne.
Qed.

Lemma converted_lookup_eq m k v :
  m !! k = Some v -> converted m (k, v) !! k = Some (rendered v).
Proof.
  intros Hk. rewrite <- rendered_conv. unfold converted.
  destruct (hasattr_isoformat v); [|done].
  destruct (isoformat v); [|done]. by rewrite lookup_insert_eq.
Qed.

Lemma foldl_converted_other items : forall m k,
  k ∉ items.*1 -> foldl converted m items !! k = m !! k.
Proof.
  induction items as [|[k0 v0] items IH]; intros m k Hk; [done|].
  simpl in *. apply not_elem_of_cons in Hk as [Hne Hk].
  rewrite IH by done. by apply converted_lookup_ne.
Qed.

Lemma foldl_converted_item items : forall m k v,
  NoDup items.*1 -> (k, v) ∈ items -> m !! k = Some v ->
  foldl converted m items !! k = Some (rendered v).
Proof.
  induction items as [|[k0 v0] items IH]; intros m k v Hnd Hin Hm.
  - by apply elem_of_nil in Hin.
  - simpl in *. apply NoDup_cons in Hnd as [Hk0 Hnd].
    apply elem_of_cons in Hin as [Heq|Hin].
    + inversion Heq; subst k0 v0.
      rewrite foldl_converted_other by done. by apply converted_lookup_eq.
    + assert (k0 ≠ k) as Hne.
      { intros ->. apply Hk0. apply list_elem_of_fmap. by exists (k, v). }
      apply IH; [done|done|]. rewrite <- Hm.
      by apply (converted_lookup_ne m k0 v0 k).
Qed.

Lemma foldl_converted_all m :
  foldl converted m (map_to_list m) = rendered <$> m.
Proof.
  apply map_eq. intros k. rewrite lookup_fmap.
  destruct (m !! k) as [v|] eqn:Hk; simpl.
  - apply foldl_converted_item; [apply NoDup_fst_map_to_list| |done].
    by apply elem_of_map_to_list.
  - rewrite foldl_converted_other; [done|].
    intros Hin. apply list_elem_of_fmap in Hin as [[k' v'] [-> Hin]].
    apply elem_of_map_to_list in Hin. simpl in *. congruence.
Qed.

Lemma convert_run l item h m :
  h !! l = Some m -> convert l item h = (tt, <[l := converted m item]> h).
Proof.
  intros Hl. destruct item as [k v]. unfold convert, converted.
  destruct (hasattr_isoformat v).
  - destruct (isoformat v).
    + unfold dict_setitem. by rewrite (obj_lookup _ _ _ Hl).
    + unfold Heap.ret. by rewrite insert_id.
  - unfold Heap.ret. by rewrite insert_id.
Qed.

Lemma for_each_convert l items : forall h m,
  h !! l = Some m ->
  for_each items (convert l) h = (tt, <[l := foldl converted m items]> h).
Proof.
  induction items as [|item items IH]; intros h m Hl; simpl.
  - unfold Heap.ret. by rewrite insert_id.
  - unfold Heap.bind. rewrite (convert_run _ _ _ _ Hl).
    rewrite (IH _ (converted m item)) by apply lookup_insert_eq.
    by rewrite insert_insert_eq.
Qed.

(** [serialize_doc] in closed form: an empty record comes back as the
    object it is; any other is copied to a new object that holds the
    serialized items, and no other object changes. *)
Lemma serialize_doc_run h l :
  serialize_doc (RDict l) h =
  if decide (obj l h = ∅) then (RDict l, h)
  else (RDict (fresh (dom h)), <[fresh (dom h) := serialized (obj l h)]> h).
Proof.
  unfold serialize_doc, Heap.bind, dict_falsy.
  destruct (decide (obj l h = ∅)) as [He|Hne].
  - by rewrite bool_decide_eq_true_2.
  - rewrite bool_decide_eq_false_2 by done.
    unfold dict_copy, dict_contains. rewrite obj_insert.
    unfold serialized, renamed.
    destruct (obj l h !! "_id") as [v|] eqn:Hid.
    + rewrite bool_decide_eq_true_2 by eauto.
      unfold dict_pop, dict_setitem, dict_items.
      rewrite !obj_insert, Hid, !insert_insert_eq. simpl.
      erewrite for_each_convert by apply lookup_insert_eq.
      by rewrite insert_insert_eq, foldl_converted_all.
    + rewrite bool_decide_eq_false_2 by (intros [? ?]; congruence).
      unfold Heap.ret, dict_items. rewrite obj_insert.
      erewrite for_each_convert by apply lookup_insert_eq.
      by rewrite insert_insert_eq, foldl_converted_all.
Qed.

Lemma rendered_idempotent v : rendered (rendered v) = rendered v.
Proof. by destruct v. Qed.

Lemma renamed_lookup_id doc : renamed doc !! "_id" = None.
Proof.
  unfold renamed. destruct (doc !! "_id") eqn:Hid; [|done].
  rewrite lookup_insert_ne by done. apply lookup_delete_eq.
Qed.

Lemma serialized_empty_inv doc : serialized doc = ∅ -> doc = ∅.
Proof.
  unfold serialized, renamed. intros Hs. apply fmap_empty_inv in Hs.
  destruct (doc !! "_id"); [|done]. by apply insert_non_empty in Hs.
Qed.

Lemma serialized_idempotent doc : serialized (serialized doc) = serialized doc.
Proof.
  unfold serialized at 1. unfold renamed at 1.
  assert (serialized doc !! "_id" = None) as ->.
  { unfold serialized. by rewrite lookup_fmap, renamed_lookup_id. }
  unfold serialized. rewrite <- map_fmap_compose. apply map_fmap_ext.
  intros k v _. apply rendered_idempotent.
Qed.

Lemma serialized_of_empty : serialized ∅ = ∅.
Proof. unfold serialized, renamed. rewrite lookup_empty. apply fmap_empty. Qed.

Lemma serialize_fresh_serialized (doc : option document) :
  serialize_fresh doc = serialized <$> doc.
Proof.
  destruct doc as [d|]; [|done]. unfold serialize_fresh.
  rewrite serialize_doc_run.
  assert (obj 1%positive ({[1%positive := d]} : heap) = d) as ->
    by apply obj_lookup, lookup_singleton_eq.
  destruct (decide (d = ∅)) as [->|Hne]; simpl.
  - rewrite serialized_of_empty. reflexivity.
  - reflexivity.
Qed.

Lemma serialize_record_serialized doc : serialize_record doc = serialized doc.
Proof. unfold serialize_record. by rewrite serialize_fresh_serialized. Qed.

(** C6. For every record [doc] held by the caller at [l]: [serialize_doc]
    returns a record without [_id], whose [id] is the text of the former
    [_id]; every other field holds its former value, a date or datetime as
    ISO 8601 text and anything else unchanged; the caller's object and
    every other object of the heap are as before; and serializing the
    result again gives a record with the same items, again without
    touching any existing object. *)
Theorem serialize_doc_contract (h : heap) (l : loc) (doc : document) :
  h !! l = Some doc ->
  exists r1 h1 doc1,
    serialize_doc (RDict l) h = (r1, h1) /\ deref r1 h1 = Some doc1 /\
    doc1 !! "_id" = None /\
    (forall v, doc !! "_id" = Some v -> doc1 !! "id" = Some (VStr (str v))) /\
    (forall k, k ≠ "_id" -> (k = "id" -> doc !! "_id" = None) ->
               doc1 !! k = rendered <$> doc !! k) /\
    (forall l0, is_Some (h !! l0) -> h1 !! l0 = h !! l0) /\
    exists r2 h2,
      serialize_doc r1 h1 = (r2, h2) /\ deref r2 h2 = Some doc1 /\
      (forall l0, is_Some (h1 !! l0) -> h2 !! l0 = h1 !! l0).
Proof.
  intros Hl. pose proof (obj_lookup _ _ _ Hl) as Hobj.
  assert (forall (g : heap) l0, is_Some (g !! l0) -> l0 ≠ fresh (dom g)) as Hfresh.
  { intros g l0 Hs ->. apply elem_of_dom in Hs. by apply is_fresh in Hs. }
  rewrite serialize_doc_run, Hobj.
  destruct (decide (doc = ∅)) as [->|Hne].
  - exists (RDict l), h, ∅. cbn [deref]. rewrite Hobj.
    split_and!; try done.
    exists (RDict l), h. rewrite serialize_doc_run, Hobj.
    rewrite decide_True by done. cbn [deref]. by rewrite Hobj.
  - set (l' := fresh (dom h)).
    exists (RDict l'), (<[l' := serialized doc]> h), (serialized doc).
    cbn [deref]. rewrite obj_insert. split_and!; try done.
    + unfold serialized. by rewrite lookup_fmap, renamed_lookup_id.
    + intros v Hid. unfold serialized, renamed.
      by rewrite Hid, lookup_fmap, lookup_insert_eq.
    + intros k Hk Hidk. unfold serialized, renamed. rewrite lookup_fmap.
      destruct (doc !! "_id") eqn:Hid; [|done].
      rewrite lookup_insert_ne by (intros <-; by specialize (Hidk eq_refl)).
      by rewrite lookup_delete_ne.
    + intros l0 Hs. apply lookup_insert_ne. symmetry. by apply Hfresh.
    + rewrite serialize_doc_run, obj_insert.
      rewrite decide_False by (intros He; by apply serialized_empty_inv in He).
      rewrite serialized_idempotent. do 2 eexists. split; [reflexivity|].
      cbn [deref]. rewrite obj_insert. split; [done|].
      intros l0 Hs. apply lookup_insert_ne. symmetry. by apply Hfresh.
Qed.

End SerializeDoc.

(** ** The update and delete routes in closed form *)

Lemma records_set_records name docs d :
  records name (set_records name docs d) = docs.
Proof. unfold records, set_records. simpl. by rewrite lookup_insert_eq. Qed.

Lemma records_set_records_ne name name' docs d :
  name ≠ name' -> records name' (set_records name docs d) = records name' d.
Proof. intros. unfold records, set_records. simpl. by rewrite lookup_insert_ne. Qed.

Lemma encodable_empty : encodable ∅ = true.
Proof. apply bool_decide_eq_true_2, map_Forall_empty. Qed.

Ltac run_update :=
  intros [[d|] env cs];
  [|reflexivity];
  match goal with |- ?f ?id _ _ = _ => unfold f end;
  unfold update_result, Store.bind, ensure_db_available, ObjectId_or_400;
  cbn [db];
  match goal with |- context [ObjectId_of_str ?id] =>
    destruct (ObjectId_of_str id) as [oid|]; [|reflexivity] end;
  cbn [Store.ret];
  case_decide; [reflexivity|];
  unfold command_isMaster_localTime, update_one, find_one, driver, logged;
  cbn [db calls environ sent]; rewrite ?encodable_empty;
  destruct (db_fault d) eqn:Hfault; [reflexivity|];
  cbn [db calls environ]; rewrite Hfault;
  match goal with |- context [encodable ?f] =>
    destruct (encodable f) eqn:Hencodable end;
  [|by rewrite <- app_assoc];
  match goal with |- context [set_first ?o ?f ?r] =>
    destruct (set_first o f r) as [docs|] eqn:Hset end;
  cbn [db calls environ Z.eqb Store.raise];
  [|by rewrite <- app_assoc];
  cbn [db_fault set_records]; rewrite Hfault;
  rewrite records_set_records, serialize_fresh_serialized;
  cbn [Store.ret]; by rewrite <- !app_assoc.

Lemma update_event_run id p : forall w,
  update_event id p w
  = update_result "event" "Invalid event id" "Event not found"
      (EventUpdate_model_dump p) id w.
Proof. run_update. Qed.

Lemma update_course_run id p : forall w,
  update_course id p w
  = update_result "course" "Invalid course id" "Course not found"
      (CourseUpdate_model_dump p) id w.
Proof. run_update. Qed.

Lemma update_timetable_run id p : forall w,
  update_timetable id p w
  = update_result "timetable" "Invalid timetable id" "Timetable slot not found"
      (TimetableUpdate_model_dump p) id w.
Proof. run_update. Qed.

Ltac run_delete :=
  intros [[d|] env cs];
  [|reflexivity];
  match goal with |- ?f ?id _ = _ => unfold f end;
  unfold delete_result, Store.bind, ensure_db_available, ObjectId_or_400;
  cbn [db];
  match goal with |- context [ObjectId_of_str ?id] =>
    destruct (ObjectId_of_str id) as [oid|]; [|reflexivity] end;
  cbn [Store.ret];
  unfold delete_one, driver, logged;
  cbn [db calls environ sent]; rewrite ?encodable_empty;
  destruct (db_fault d) eqn:Hfault; [reflexivity|];
  match goal with |- context [remove_first ?o ?r] =>
    destruct (remove_first o r) as [docs|] eqn:Hrem end;
  reflexivity.

Lemma delete_event_run id : forall w,
  delete_event id w
  = delete_result "event" "Invalid event id" "Event not found" id w.
Proof. run_delete. Qed.

Lemma delete_course_run id : forall w,
  delete_course id w
  = delete_result "course" "Invalid course id" "Course not found" id w.
Proof. run_delete. Qed.

Lemma delete_timetable_run id : forall w,
  delete_timetable id w
  = delete_result "timetable" "Invalid timetable id" "Timetable slot not found" id w.
Proof. run_delete. Qed.

Lemma update_route_run id p w :
  update_route id p w
  = update_result (collection_of (entity_of p)) (invalid_detail (entity_of p))
      (not_found_detail (entity_of p)) (model_dump p) id w.
Proof.
  destruct p; simpl.
  - apply update_event_run.
  - apply update_course_run.
  - apply update_timetable_run.
Qed.

Lemma delete_route_run e id w :
  delete_route e id w
  = delete_result (collection_of e) (invalid_detail e) (not_found_detail e) id w.
Proof.
  destruct e; simpl.
  - apply delete_event_run.
  - apply delete_course_run.
  - apply delete_timetable_run.
Qed.

Section Records.

Implicit Types (docs : list document) (doc fields : document) (oid : ObjectId).

Lemma has_id_union oid fields doc :
  fields !! "_id" = None -> has_id oid (fields ∪ doc) = has_id oid doc.
Proof.
  intros Hf. unfold has_id.
  by rewrite lookup_union_r.
Qed.

Lemma set_first_find oid fields docs :
  set_first oid fields docs = None <-> List.find (has_id oid) docs = None.
Proof.
  induction docs as [|doc docs IH]; simpl; [done|].
  destruct (has_id oid doc); [done|].
  rewrite fmap_None. apply IH.
Qed.

Lemma remove_first_find oid docs :
  remove_first oid docs = None <-> List.find (has_id oid) docs = None.
Proof.
  induction docs as [|doc docs IH]; simpl; [done|].
  destruct (has_id oid doc); [done|].
  rewrite fmap_None. apply IH.
Qed.

Lemma find_has_id_None oid docs :
  (forall doc, doc ∈ docs -> doc !! "_id" ≠ Some (VObjectId oid)) ->
  List.find (has_id oid) docs = None.
Proof.
  induction docs as [|doc docs IH]; intros Hall; simpl; [done|].
  unfold has_id at 1. rewrite bool_decide_eq_false_2.
  - apply IH. intros doc' Hin. apply Hall. by right.
  - apply Hall. by left.
Qed.

(** After [$set], the first record with the identifier is the first one
    there was, with the fields laid over it. *)
Lemma set_first_found oid fields docs docs' :
  fields !! "_id" = None ->
  set_first oid fields docs = Some docs' ->
  exists doc,
    List.find (has_id oid) docs = Some doc /\
    List.find (has_id oid) docs' = Some (fields ∪ doc).
Proof.
  intros Hf. revert docs'.
  induction docs as [|doc docs IH]; intros docs' Hset; simpl in *; [done|].
  destruct (has_id oid doc) eqn:Hid.
  - inversion Hset; subst docs'. exists doc. split; [done|].
    simpl. by rewrite has_id_union, Hid.
  - apply fmap_Some in Hset as (rest & Hrest & ->).
    destruct (IH _ Hrest) as (doc0 & Hfind & Hfind').
    exists doc0. split; [done|]. simpl. by rewrite Hid.
Qed.

Lemma only_changes_refl keys docs : only_changes keys docs docs.
Proof. unfold only_changes. by apply Forall2_same_length_lookup_2; [|intros; simplify_eq]. Qed.

(** [$set] leaves every field it does not name as it was, in every
    record. *)
Lemma set_first_only_changes keys oid fields docs docs' :
  (forall k, k ∉ keys -> fields !! k = None) ->
  set_first oid fields docs = Some docs' ->
  only_changes keys docs docs'.
Proof.
  intros Hf. revert docs'.
  induction docs as [|doc docs IH]; intros docs' Hset; simpl in *; [done|].
  destruct (has_id oid doc).
  - inversion Hset; subst docs'. constructor.
    + intros k Hk. by rewrite lookup_union_r by by apply Hf.
    + apply only_changes_refl.
  - apply fmap_Some in Hset as (rest & Hrest & ->).
    constructor; [done|]. by apply IH.
Qed.

Lemma ids_set_first oid fields docs docs' :
  fields !! "_id" = None ->
  set_first oid fields docs = Some docs' -> ids docs' = ids docs.
Proof.
  intros Hf. revert docs'.
  induction docs as [|doc docs IH]; intros docs' Hset; simpl in *; [done|].
  destruct (has_id oid doc).
  - inversion Hset; subst docs'. unfold ids. simpl.
    by rewrite lookup_union_r.
  - apply fmap_Some in Hset as (rest & Hrest & ->).
    unfold ids in *. simpl. f_equal. by apply IH.
Qed.

Lemma remove_first_split oid docs docs' :
  remove_first oid docs = Some docs' ->
  exists docs1 doc docs2, docs = docs1 ++ doc :: docs2 /\ docs' = docs1 ++ docs2.
Proof.
  revert docs'.
  induction docs as [|doc docs IH]; intros docs' Hrem; simpl in *; [done|].
  destruct (has_id oid doc).
  - inversion Hrem; subst docs'. by exists [], doc, docs.
  - apply fmap_Some in Hrem as (rest & Hrest & ->).
    destruct (IH _ Hrest) as (docs1 & doc0 & docs2 & -> & ->).
    by exists (doc :: docs1), doc0, docs2.
Qed.

End Records.

Lemma model_dump_no_id p : model_dump p !! "_id" = None.
Proof. by destruct p. Qed.

Lemma model_dump_no_updated_at p : model_dump p !! "updated_at" = None.
Proof. by destruct p. Qed.

Lemma not_None_lookup (dump : document) k :
  not_None dump !! k = None <-> (dump !! k = None \/ dump !! k = Some VNone).
Proof.
  unfold not_None. rewrite map_lookup_filter_None. split.
  - intros [Hn|Hall]; [by left|].
    destruct (dump !! k) as [v|] eqn:Hk; [|by left]. right.
    destruct (decide (v = VNone)) as [->|Hv]; [done|].
    by destruct (Hall v eq_refl).
  - intros [Hn|Hs]; [by left|]. right. intros v Hv Hp. simpl in Hp. congruence.
Qed.

Lemma not_None_lookup_Some (dump : document) k v :
  not_None dump !! k = Some v <-> (dump !! k = Some v /\ v ≠ VNone).
Proof. unfold not_None. by rewrite map_lookup_filter_Some. Qed.

Lemma not_None_empty (dump : document) :
  not_None dump = ∅ <-> (forall k v, dump !! k = Some v -> v = VNone).
Proof.
  split.
  - intros He k v Hk. destruct (decide (v = VNone)) as [|Hv]; [done|].
    assert (not_None dump !! k = Some v) as Hs by by apply not_None_lookup_Some.
    rewrite He in Hs. by rewrite lookup_empty in Hs.
  - intros Hall. apply map_eq. intros k. rewrite lookup_empty.
    apply not_None_lookup. destruct (dump !! k) as [v|] eqn:Hk; [|by left].
    right. f_equal. by apply (Hall k).
Qed.

(** ** Updates and deletes *)

(** C1. A successful update (of any of the three entity types) whose
    payload supplies only field [x], every other field of the payload
    being [None], changes no field other than [x] and [updated_at] in any
    record of any collection.  The record with the identifier then holds
    the supplied value at [x] and the clock of the server at
    [updated_at], and it is what the handler returns, serialized. *)
Theorem update_changes_only_supplied_field
    (x id : string) (p : update_payload) (w w' : World) (result : option document) :
  (forall k v, model_dump p !! k = Some v -> k ≠ x -> v = VNone) ->
  update_route id p w = (Ok result, w') ->
  exists d d' oid doc',
    db w = Some d /\ db w' = Some d' /\ ObjectId_of_str id = Some oid /\
    (forall name, only_changes [x; "updated_at"] (records name d) (records name d')) /\
    List.find (has_id oid) (records (collection_of (entity_of p)) d') = Some doc' /\
    is_Some (model_dump p !! x) /\ doc' !! x = model_dump p !! x /\
    doc' !! "updated_at" = Some (db_localTime d) /\
    result = serialize_fresh (Some doc').
Proof.
  intros Honly. rewrite update_route_run. unfold update_result.
  set (name := collection_of (entity_of p)).
  destruct (db w) as [d|] eqn:Hdb; [|done].
  destruct (ObjectId_of_str id) as [oid|]; [|done].
  case_decide as Hempty; [done|].
  destruct (db_fault d); [done|].
  set (fields := <["updated_at" := db_localTime d]> (not_None (model_dump p))).
  destruct (encodable fields); [|done].
  destruct (set_first oid fields (records name d)) as [docs|] eqn:Hset; [|done].
  intros [= <- <-].
  assert (fields !! "_id" = None) as Hid.
  { unfold fields. rewrite lookup_insert_ne by done.
    apply not_None_lookup. left. apply model_dump_no_id. }
  assert (exists v, model_dump p !! x = Some v /\ v ≠ VNone) as (v & Hx & Hv).
  { apply map_choose in Hempty as (k & v & Hk).
    apply not_None_lookup_Some in Hk as [Hk Hv]. exists v.
    destruct (decide (k = x)) as [<-|Hne]; [done|].
    by destruct Hv, (Honly k v). }
  assert (x ≠ "updated_at") as Hxu.
  { intros ->. by rewrite model_dump_no_updated_at in Hx. }
  destruct (set_first_found _ _ _ _ Hid Hset) as (doc & Hfind & Hfind').
  exists d, (set_records name docs d), oid, (fields ∪ doc).
  rewrite records_set_records. split_and!; try done.
  - intros name'. destruct (decide (name = name')) as [<-|Hne].
    + rewrite records_set_records.
      apply (set_first_only_changes _ oid fields); [|done].
      intros k Hk. unfold fields.
      rewrite lookup_insert_ne by (intros <-; apply Hk; set_solver).
      apply not_None_lookup.
      destruct (model_dump p !! k) as [v'|] eqn:Hk'; [|by left].
      right. f_equal. apply (Honly k v' Hk'). intros ->. apply Hk. set_solver.
    + rewrite records_set_records_ne by done. apply only_changes_refl.
  - rewrite Hx. apply lookup_union_Some_l. unfold fields.
    rewrite lookup_insert_ne by done. by apply not_None_lookup_Some.
  - apply lookup_union_Some_l. unfold fields. apply lookup_insert_eq.
  - by rewrite serialize_fresh_serialized, Hfind'.
Qed.

(** C2, amended. For every identifier text that [ObjectId] refuses, the
    update and delete handlers of the three entity types fail and leave
    the world as it is, the log of driver calls included: no call of the
    store is made.  The status is 400 when the application has a database
    handle, and 500 when it has none. *)
Theorem malformed_id_rejected (id : string) (w : World) :
  ObjectId_of_str id = None ->
  (forall p, exists detail,
     update_route id p w = (HTTPException (refusal w) detail, w)) /\
  (forall e, exists detail,
     delete_route e id w = (HTTPException (refusal w) detail, w)).
Proof.
  intros Hid. split.
  - intros p. rewrite update_route_run. unfold update_result, refusal.
    destruct (db w); rewrite ?Hid; eauto.
  - intros e. rewrite delete_route_run. unfold delete_result, refusal.
    destruct (db w); rewrite ?Hid; eauto.
Qed.

(** The update document is one the encoder takes when the integers of
    the payload and the clock of the server fit in eight bytes. *)
Lemma update_data_encodable (dump : document) (now : value) :
  (forall k z, dump !! k = Some (VInt z) -> int64 z = true) ->
  fits now = true ->
  encodable (<["updated_at" := now]> (not_None dump)) = true.
Proof.
  intros Hints Hnow. apply bool_decide_eq_true_2.
  apply map_Forall_insert_2; [done|].
  intros k v Hk. apply not_None_lookup_Some in Hk as [Hk _].
  destruct v; try done. by apply (Hints k).
Qed.

(** C3, amended. With a database handle and a server that answers, for
    every well-formed identifier that no record of the collection has:
    the delete handler fails with 404; and the update handler fails with
    404 when its payload has a field that is not [None] and the integers
    it sends (those of the payload, and the clock of the server should it
    be one) fit in the eight bytes the store has for an integer.  The
    database is as before. *)
Theorem absent_id_not_found (id : string) (oid : ObjectId) (w : World) (d : Database) :
  db w = Some d -> db_fault d = None -> ObjectId_of_str id = Some oid ->
  (forall e,
     (forall doc, doc ∈ records (collection_of e) d ->
                  doc !! "_id" ≠ Some (VObjectId oid)) ->
     exists detail w',
       delete_route e id w = (HTTPException 404 detail, w') /\ db w' = Some d) /\
  (forall p v k,
     model_dump p !! k = Some v -> v ≠ VNone ->
     (forall k' z, model_dump p !! k' = Some (VInt z) -> int64 z = true) ->
     fits (db_localTime d) = true ->
     (forall doc, doc ∈ records (collection_of (entity_of p)) d ->
                  doc !! "_id" ≠ Some (VObjectId oid)) ->
     exists detail w',
       update_route id p w = (HTTPException 404 detail, w') /\ db w' = Some d).
Proof.
  intros Hdb Hfault Hid. split.
  - intros e Habsent. rewrite delete_route_run. unfold delete_result.
    rewrite Hdb, Hid, Hfault.
    apply find_has_id_None, remove_first_find in Habsent. rewrite Habsent.
    by eauto.
  - intros p v k Hk Hv Hints Hnow Habsent.
    rewrite update_route_run. unfold update_result.
    rewrite Hdb, Hid, Hfault.
    rewrite decide_False.
    + rewrite update_data_encodable by done.
      apply find_has_id_None in Habsent.
      eapply set_first_find in Habsent. rewrite Habsent. by eauto.
    + intros He. assert (not_None (model_dump p) !! k = Some v) as Hs
        by by apply not_None_lookup_Some.
      by rewrite He, lookup_empty in Hs.
Qed.

(** C4, amended. For every update whose payload has no field other than
    [None], the handler fails and leaves the world as it is: nothing is
    written and no call of the store is logged.  The status is 400 when
    the application has a database handle, and 500 when it has none. *)
Theorem empty_update_rejected (id : string) (p : update_payload) (w : World) :
  (forall k v, model_dump p !! k = Some v -> v = VNone) ->
  exists detail, update_route id p w = (HTTPException (refusal w) detail, w).
Proof.
  intros Hnone. apply not_None_empty in Hnone.
  rewrite update_route_run. unfold update_result, refusal.
  destruct (db w); [|by eauto].
  destruct (ObjectId_of_str id); [|by eauto].
  rewrite decide_True by done. by eauto.
Qed.

(** ** The bounds of [year] *)

Section Year.

Variable to_int : value -> option Z.
Hypothesis to_int_integer : forall z, to_int (VInt z) = Some z.

Variables (body : dict_of value) (y : Z).

Lemma bounded_year_in : 2000 <= y <= 2100 -> bounded "year" 2000 2100 y = [].
Proof.
  intros Hy. unfold bounded.
  destruct (Z.ltb_spec y 2000); [lia|]. destruct (Z.ltb_spec 2100 y); [lia|done].
Qed.

Lemma bounded_year_out :
  ~ (2000 <= y <= 2100) ->
  exists kind, bounded "year" 2000 2100 y = [("year", kind)].
Proof.
  intros Hy. unfold bounded.
  destruct (Z.ltb_spec y 2000); [by eauto|].
  destruct (Z.ltb_spec 2100 y); [by eauto|lia].
Qed.

Lemma required_int_year :
  required_int to_int "year" 2000 2100 (<["year" := VInt y]> body)
  = match bounded "year" 2000 2100 y with [] => inr y | es => inl es end.
Proof. unfold required_int. by rewrite lookup_insert_eq, to_int_integer. Qed.

Lemma required_str_other name :
  name ≠ "year" ->
  required_str name (<["year" := VInt y]> body) = required_str name body.
Proof. intros. unfold required_str. by rewrite lookup_insert_ne. Qed.

Lemma optional_str_other name :
  name ≠ "year" ->
  optional_str name (<["year" := VInt y]> body) = optional_str name body.
Proof. intros. unfold optional_str. by rewrite lookup_insert_ne. Qed.

Lemma optional_int_other name default ge le :
  name ≠ "year" ->
  optional_int to_int name default ge le (<["year" := VInt y]> body)
  = optional_int to_int name default ge le body.
Proof. intros. unfold optional_int. by rewrite lookup_insert_ne. Qed.

Lemma required_enum_other {E} (of_str : string -> option E) name :
  name ≠ "year" ->
  required_enum of_str name (<["year" := VInt y]> body)
  = required_enum of_str name body.
Proof. intros. unfold required_enum. by rewrite lookup_insert_ne. Qed.

Lemma required_str_text name :
  has_text name body -> exists s, required_str name body = inr s.
Proof. intros [s Hs]. exists s. unfold required_str. by rewrite Hs. Qed.

Lemma optional_str_text name :
  may_have_text name body -> exists o, optional_str name body = inr o.
Proof.
  unfold optional_str. intros [Hs|[Hs|[s Hs]]]; rewrite Hs; by eexists.
Qed.

Lemma required_semester name m :
  body !! name = Some (VStr (Semester_value m)) ->
  required_enum Semester_of_str name body = inr m.
Proof. intros Hm. unfold required_enum. rewrite Hm. by destruct m. Qed.

Lemma required_day name m :
  body !! name = Some (VStr (DayOfWeek_value m)) ->
  required_enum DayOfWeek_of_str name body = inr m.
Proof. intros Hm. unfold required_enum. rewrite Hm. by destruct m. Qed.

Lemma optional_int_credits :
  (body !! "credits" = None \/ body !! "credits" = Some VNone \/
   exists z, body !! "credits" = Some (VInt z) /\ 0 <= z <= 30) ->
  exists o, optional_int to_int "credits" (Some 3) 0 30 body = inr o.
Proof.
  unfold optional_int. intros [Hc|[Hc|(z & Hc & Hz)]]; rewrite Hc;
    [by eexists..|].
  rewrite to_int_integer. unfold bounded.
  destruct (Z.ltb_spec z 0); [lia|]. destruct (Z.ltb_spec 30 z); [lia|].
  by eexists.
Qed.

End Year.

Ltac other_fields :=
  rewrite ?required_str_other, ?optional_str_other, ?optional_int_other,
    ?required_enum_other by done.

Ltac each_field :=
  repeat match goal with
  | |- context [match ?c with inl _ => _ | inr _ => _ end] =>
      lazymatch c with
      | required_str _ _ => destruct c
      | optional_str _ _ => destruct c
      | optional_int _ _ _ _ _ _ => destruct c
      | required_enum _ _ _ => destruct c
      end
  end.

(** C5. Whatever pydantic converts to an integer besides integers: for a
    Course or Timetable body with the integer [y] as [year], if [y] is
    outside 2000..2100 validation fails and names [year] among the
    errors; if [y] is inside, bounds included, validation succeeds with
    that year as soon as the other fields of the body are valid. *)
Theorem year_bounds_inclusive
    (to_int : value -> option Z) (body : dict_of value) (y : Z) :
  (forall z, to_int (VInt z) = Some z) ->
  (~ (2000 <= y <= 2100) ->
     (exists es kind,
        Course_validate to_int (<["year" := VInt y]> body) = inl es /\
        ("year", kind) ∈ es) /\
     (exists es kind,
        Timetable_validate to_int (<["year" := VInt y]> body) = inl es /\
        ("year", kind) ∈ es)) /\
  (2000 <= y <= 2100 ->
     (course_rest_valid body ->
      exists c,
        Course_validate to_int (<["year" := VInt y]> body) = inr c /\
        co_year c = y) /\
     (slot_rest_valid body ->
      exists t,
        Timetable_validate to_int (<["year" := VInt y]> body) = inr t /\
        tt_year t = y)).
Proof.
  intros Hint. split.
  - intros Hy. destruct (bounded_year_out y Hy) as [kind Hb].
    split.
    + unfold Course_validate. rewrite required_int_year, Hb by done.
      other_fields.
      each_field; eexists _, kind; (split; [reflexivity|]);
        cbn [errors_of]; set_solver.
    + unfold Timetable_validate. rewrite required_int_year, Hb by done.
      other_fields.
      each_field; eexists _, kind; (split; [reflexivity|]);
        cbn [errors_of]; set_solver.
  - intros Hy. split.
    + intros (Hcode & Htitle & [m Hm] & Hlecturer & Hcredits & Hdescription).
      unfold Course_validate.
      rewrite required_int_year, (bounded_year_in y Hy) by done. other_fields.
      destruct (required_str_text body _ Hcode) as [code ->].
      destruct (required_str_text body _ Htitle) as [title ->].
      rewrite (required_semester body _ m Hm).
      destruct (optional_str_text body _ Hlecturer) as [lecturer ->].
      destruct (optional_int_credits to_int Hint body Hcredits) as [credits ->].
      destruct (optional_str_text body _ Hdescription) as [description ->].
      by eexists.
    + intros ([m Hm] & [day Hday] & Hstart & Hend & Hcode & Hvenue & Hlecturer
              & Hnotes).
      unfold Timetable_validate.
      rewrite required_int_year, (bounded_year_in y Hy) by done. other_fields.
      rewrite (required_semester body _ m Hm), (required_day body _ day Hday).
      destruct (required_str_text body _ Hstart) as [start_time ->].
      destruct (required_str_text body _ Hend) as [end_time ->].
      destruct (required_str_text body _ Hcode) as [course_code ->].
      destruct (optional_str_text body _ Hvenue) as [venue ->].
      destruct (optional_str_text body _ Hlecturer) as [lecturer ->].
      destruct (optional_str_text body _ Hnotes) as [notes ->].
      by eexists.
Qed.

(** ** Listing and diagnosis *)

Lemma ensure_db_available_run w d :
  db w = Some d -> ensure_db_available w = (Ok tt, w).
Proof. intros Hdb. unfold ensure_db_available. by rewrite Hdb. Qed.








Lemma list_collection_names_run w d :
  db w = Some d ->
  list_collection_names w
  = match db_fault d with
    | Some msg => (Exception msg, logged [ListCollectionNames] d w)
    | None => (Ok (map_to_list (db_collections d)).*1, logged [ListCollectionNames] d w)
    end.
Proof.
  intros Hdb. unfold list_collection_names, driver. rewrite Hdb.
  cbn [sent]. rewrite encodable_empty. by destruct (db_fault d).
Qed.

(** C8. In every world, [test_database] returns its dictionary (status
    200), never an exception, and leaves the database as it is.  The
    dictionary tells for each of [DATABASE_URL] and [DATABASE_NAME]
    whether it is set to a non-empty text; without a handle it reads
    "Not Connected" and gives the reason; with a handle it reads
    "Connected", and reports either the error of the server that could
    not be reached or the names of the collections. *)
Theorem test_database_always_answers (w : World) :
  exists r w',
    test_database w = (Ok r, w') /\ status (test_database w).1 = 200 /\
    db w' = db w /\
    r_database_url r
      = (if truthy_str (environ w !! "DATABASE_URL") then "✅ Set" else "❌ Not Set") /\
    r_database_name r
      = (if truthy_str (environ w !! "DATABASE_NAME") then "✅ Set" else "❌ Not Set") /\
    match db w with
    | None =>
        r_connection_status r = "Not Connected" /\
        r_database r = ("❌ " ++ unavailable)%string /\ r_collections r = []
    | Some d =>
        r_connection_status r = "Connected" /\
        match db_fault d with
        | Some msg =>
            r_database r = ("❌ Error: " ++ String.substring 0 80 msg)%string /\
            r_collections r = []
        | None =>
            r_database r = "✅ Connected & Working" /\
            r_collections r = (map_to_list (db_collections d)).*1
        end
    end.
Proof.
  unfold test_database.
  destruct (db w) as [d|] eqn:Hdb.
  - rewrite (ensure_db_available_run _ _ Hdb), (list_collection_names_run _ _ Hdb).
    destruct (db_fault d) as [msg|]; do 2 eexists; by split_and!.
  - unfold ensure_db_available. rewrite Hdb. do 2 eexists. by split_and!.
Qed.

(** ** Identifiers *)

Section Steps.

Lemma id_step_refl docs : id_step docs docs.
Proof. by apply ids_kept. Qed.

Lemma id_step_NoDup docs docs' :
  id_step docs docs' -> NoDup (ids docs) -> NoDup (ids docs').
Proof.
  destruct 1 as [docs docs' Hids|docs1 doc docs2|docs doc _ Hnew]; unfold ids.
  - unfold ids in Hids. by rewrite Hids.
  - rewrite !fmap_app, fmap_cons. intros Hnd.
    apply (sublist_NoDup _ _ Hnd).
    apply sublist_app; [done|]. by apply sublist_cons.
  - rewrite fmap_app. intros Hnd. apply NoDup_app. split_and!; [done| |].
    + intros x Hx. simpl. rewrite list_elem_of_singleton. intros ->. by apply Hnew.
    + simpl. apply NoDup_singleton.
Qed.

Lemma logs_no_id_refl w : logs_no_id w w.
Proof. exists []. by rewrite app_nil_r. Qed.

Lemma logs_no_id_trans w1 w2 w3 :
  logs_no_id w1 w2 -> logs_no_id w2 w3 -> logs_no_id w1 w3.
Proof.
  intros (n1 & H1 & F1) (n2 & H2 & F2). exists (n1 ++ n2).
  split; [by rewrite H2, H1, app_assoc|]. by apply Forall_app.
Qed.

Lemma quiet_refl w : quiet w w.
Proof. split; [apply logs_no_id_refl|done]. Qed.

Lemma quiet_keeps_ids w w' : quiet w w' -> keeps_ids w w'.
Proof.
  intros [Hlog Hdb]. split; [done|]. rewrite Hdb.
  destruct (db w); [|done]. intros name. apply id_step_refl.
Qed.

Lemma quiet_then_keeps w1 w2 w3 : quiet w1 w2 -> keeps_ids w2 w3 -> keeps_ids w1 w3.
Proof.
  intros [Hlog Hdb] [Hlog' Hstep]. split; [by eapply logs_no_id_trans|].
  by rewrite <- Hdb.
Qed.

Lemma keeps_then_quiet w1 w2 w3 : keeps_ids w1 w2 -> quiet w2 w3 -> keeps_ids w1 w3.
Proof.
  intros [Hlog Hstep] [Hlog' Hdb]. split; [by eapply logs_no_id_trans|].
  by rewrite Hdb.
Qed.

Context {A B : Type}.

Lemma reads_only_ret (a : A) : reads_only (Store.ret a).
Proof. intros w o w' [= <- <-]. apply quiet_refl. Qed.

Lemma reads_only_raise code detail : reads_only (@Store.raise A code detail).
Proof. intros w o w' [= <- <-]. apply quiet_refl. Qed.

Lemma reads_only_respects (m : M A) : reads_only m -> respects m.
Proof. intros Hm w o w' Hrun. eapply quiet_keeps_ids, Hm, Hrun. Qed.

Lemma reads_only_bind (m : M A) (k : A -> M B) :
  reads_only m -> (forall a, reads_only (k a)) -> reads_only (Store.bind m k).
Proof.
  intros Hm Hk w o w'. unfold Store.bind.
  destruct (m w) as [[a|c e|e] w1] eqn:Hrun; specialize (Hm _ _ _ Hrun).
  - intros Hrun'. specialize (Hk _ _ _ _ Hrun').
    destruct Hm as [Hl He], Hk as [Hl' He'].
    split; [by eapply logs_no_id_trans|congruence].
  - by intros [= <- <-].
  - by intros [= <- <-].
Qed.

(** Reads, then a computation that respects the identifiers. *)
Lemma respects_after_reads (m : M A) (k : A -> M B) :
  reads_only m -> (forall a, respects (k a)) -> respects (Store.bind m k).
Proof.
  intros Hm Hk w o w'. unfold Store.bind.
  destruct (m w) as [[a|c e|e] w1] eqn:Hrun; specialize (Hm _ _ _ Hrun).
  - intros Hrun'. eapply quiet_then_keeps; [done|]. by eapply Hk.
  - intros [= <- <-]. by apply quiet_keeps_ids.
  - intros [= <- <-]. by apply quiet_keeps_ids.
Qed.

(** One write, then reads. *)
Lemma respects_before_reads (m : M A) (k : A -> M B) :
  respects m -> (forall a, reads_only (k a)) -> respects (Store.bind m k).
Proof.
  intros Hm Hk w o w'. unfold Store.bind.
  destruct (m w) as [[a|c e|e] w1] eqn:Hrun; specialize (Hm _ _ _ Hrun).
  - intros Hrun'. eapply keeps_then_quiet; [done|]. by eapply Hk.
  - by intros [= <- <-].
  - by intros [= <- <-].
Qed.

(** A driver call whose effect on each collection is one step. *)
Lemma respects_driver (c : call) (f : Database -> A * Database) :
  sets_no_id c ->
  (forall d a d', f d = (a, d') ->
     forall name, id_step (records name d) (records name d')) ->
  respects (driver c f).
Proof.
  intros Hc Hf w o w'. unfold driver.
  destruct (db w) as [d|] eqn:Hdb.
  - assert (logs_no_id w {| db := db w; environ := environ w;
                            calls := calls w ++ [c] |}) as Hlog.
    { exists [c]. split; [done|]. by constructor. }
    destruct (db_fault d); [|destruct (encodable (sent c))].
    + intros [= <- <-]. split; [done|].
      cbn [db]. rewrite Hdb. intros name. apply id_step_refl.
    + destruct (f d) as [a d'] eqn:Hfd. intros [= <- <-]. split; [done|].
      cbn [db]. rewrite Hdb. by eapply Hf.
    + intros [= <- <-]. split; [done|].
      cbn [db]. rewrite Hdb. intros name. apply id_step_refl.
  - intros [= <- <-]. apply quiet_keeps_ids, quiet_refl.
Qed.

(** A driver call that only reads. *)
Lemma reads_only_driver (c : call) (f : Database -> A * Database) :
  sets_no_id c -> (forall d, (f d).2 = d) -> reads_only (driver c f).
Proof.
  intros Hc Hf w o w'. unfold driver.
  destruct (db w) as [d|] eqn:Hdb.
  - assert (logs_no_id w {| db := db w; environ := environ w;
                            calls := calls w ++ [c] |}) as Hlog.
    { exists [c]. split; [done|]. by constructor. }
    destruct (db_fault d); [|destruct (encodable (sent c))].
    + by intros [= <- <-].
    + specialize (Hf d). destruct (f d) as [a d']. simpl in Hf. subst d'.
      by intros [= <- <-].
    + by intros [= <- <-].
  - intros [= <- <-]. apply quiet_refl.
Qed.

End Steps.

Lemma id_step_set_records name docs d name' :
  id_step (records name d) docs ->
  id_step (records name' d) (records name' (set_records name docs d)).
Proof.
  intros Hstep. destruct (decide (name = name')) as [<-|Hne].
  - by rewrite records_set_records.
  - rewrite records_set_records_ne by done. apply id_step_refl.
Qed.

Lemma fold_big_endian k : forall n acc a,
  fold_left (fun a b => 256 * a + b)%N (big_endian k n acc) a
  = fold_left (fun a b => 256 * a + b)%N acc
      (a * 256 ^ N.of_nat k + n mod 256 ^ N.of_nat k)%N.
Proof.
  induction k as [|k IH]; intros n acc a.
  - simpl. f_equal. rewrite N.mod_1_r. lia.
  - cbn [big_endian]. rewrite IH. cbn [fold_left]. f_equal.
    rewrite Nat2N.inj_succ, N.pow_succ_r'.
    rewrite (N.Div0.mod_mul_r n 256 (256 ^ N.of_nat k)). lia.
Qed.

(** A new identifier spells the number it was made from. *)
Lemma number_new_id n : (let 'Oid binary := new_id n in number binary) = n.
Proof.
  unfold new_id, number. rewrite fold_big_endian. cbn [fold_left].
  rewrite N.mul_0_l, N.add_0_l. apply N.mod_small.
  destruct (N.ltb_spec n (2 ^ 96)) as [Hsmall|Hlarge].
  - exact Hsmall.
  - rewrite N2Nat.id. apply N.pow_gt_lin_r. lia.
Qed.

Lemma fresh_id_unused docs :
  Some (VObjectId (new_id (fresh (used docs)))) ∉ ids docs.
Proof.
  intros Hin. apply list_elem_of_fmap in Hin as (doc & Hid & Hdoc).
  apply (infinite_is_fresh (used docs)).
  apply list_elem_of_omap. exists doc. split; [done|]. rewrite <- Hid.
  pose proof (number_new_id (fresh (used docs))) as Hnumber.
  destruct (new_id (fresh (used docs))) as [binary]. by rewrite Hnumber.
Qed.

Lemma reads_only_ensure : reads_only ensure_db_available.
Proof.
  intros w o w'. unfold ensure_db_available.
  destruct (db w); intros [= <- <-]; apply quiet_refl.
Qed.

Lemma reads_only_ObjectId_or_400 s detail : reads_only (ObjectId_or_400 s detail).
Proof.
  unfold ObjectId_or_400. destruct (ObjectId_of_str s);
    [apply reads_only_ret|apply reads_only_raise].
Qed.

Lemma reads_only_ObjectId_or_fail s : reads_only (ObjectId_or_fail s).
Proof.
  unfold ObjectId_or_fail. destruct (ObjectId_of_str s); [apply reads_only_ret|].
  intros w o w' [= <- <-]. apply quiet_refl.
Qed.

Lemma reads_only_localTime : reads_only command_isMaster_localTime.
Proof. by apply reads_only_driver. Qed.

Lemma reads_only_list_collection_names : reads_only list_collection_names.
Proof. by apply reads_only_driver. Qed.

Lemma reads_only_find_one name oid : reads_only (find_one name oid).
Proof. by apply reads_only_driver. Qed.

Lemma reads_only_get_documents name query limit :
  reads_only (get_documents name query limit).
Proof. by apply reads_only_driver. Qed.

Lemma respects_update_one name oid fields :
  fields !! "_id" = None -> respects (update_one name oid fields).
Proof.
  intros Hid. apply respects_driver; [done|].
  intros d a d' Hrun name'.
  destruct (set_first oid fields (records name d)) as [docs|] eqn:Hset;
    inversion Hrun; subst; [|apply id_step_refl].
  apply id_step_set_records, ids_kept. by eapply ids_set_first.
Qed.

Lemma respects_delete_one name oid : respects (delete_one name oid).
Proof.
  apply respects_driver; [done|].
  intros d a d' Hrun name'.
  destruct (remove_first oid (records name d)) as [docs|] eqn:Hrem;
    inversion Hrun; subst; [|apply id_step_refl].
  apply id_step_set_records.
  apply remove_first_split in Hrem as (docs1 & doc & docs2 & -> & ->).
  apply record_removed.
Qed.

Lemma respects_insert_one name doc : respects (insert_one name doc).
Proof.
  apply respects_driver; [done|].
  intros d a d' [= <- <-] name'.
  apply id_step_set_records, record_created.
  - rewrite lookup_insert_eq. by eexists.
  - rewrite lookup_insert_eq. apply fresh_id_unused.
Qed.

Lemma respects_create_document name data : respects (create_document name data).
Proof.
  apply respects_before_reads; [apply respects_insert_one|].
  intros oid. apply reads_only_ret.
Qed.

Lemma reads_only_test_database : reads_only test_database.
Proof.
  intros w o w'. unfold test_database.
  destruct (ensure_db_available w) as [[[]|c e|e] w1] eqn:Hens;
    pose proof (reads_only_ensure _ _ _ Hens) as Hq.
  - destruct (list_collection_names w1) as [[names|c e|e] w2] eqn:Hnames;
      pose proof (reads_only_list_collection_names _ _ _ Hnames) as [Hl Hd];
      intros [= <- <-]; (split; [by eapply logs_no_id_trans; [apply Hq|]|]);
      destruct Hq; congruence.
  - by intros [= <- <-].
  - by intros [= <- <-].
Qed.

Lemma not_None_no_id (dump : document) now :
  dump !! "_id" = None ->
  (<["updated_at" := now]> (not_None dump) : document) !! "_id" = None.
Proof.
  intros Hd. rewrite lookup_insert_ne by done. apply not_None_lookup. by left.
Qed.

Create HintDb handlers.
#[local] Hint Resolve reads_only_ret reads_only_raise reads_only_ensure
  reads_only_ObjectId_or_400 reads_only_ObjectId_or_fail reads_only_localTime
  reads_only_list_collection_names reads_only_find_one
  reads_only_get_documents reads_only_test_database : handlers.
#[local] Hint Resolve respects_delete_one respects_create_document : handlers.

(** Decompose a handler into its calls. *)
Ltac reads :=
  repeat first
    [ solve [auto with handlers]
    | apply reads_only_bind; [|intros ?]
    | case_decide
    | match goal with |- context [if ?b then _ else _] => destruct b end ].

Ltac steps :=
  repeat first
    [ solve [auto with handlers]
    | solve [apply reads_only_respects; reads]
    | apply respects_after_reads; [solve [reads]|intros ?]
    | apply respects_before_reads; [|intros ?; solve [reads]]
    | apply respects_update_one; apply not_None_no_id; reflexivity
    | case_decide
    | match goal with |- context [if ?b then _ else _] => destruct b end ].

Lemma respects_app (r : request) : respects (app r).
Proof.
  destruct r; unfold app, respond;
    (apply respects_before_reads; [|intros ?; apply reads_only_ret]).
  - unfold read_root. steps.
  - steps.
  - unfold list_events. steps.
  - unfold create_event. steps.
  - unfold update_event. steps.
  - unfold delete_event. steps.
  - unfold list_courses. steps.
  - unfold create_course. steps.
  - unfold update_course. steps.
  - unfold delete_course. steps.
  - unfold list_timetable. steps.
  - unfold create_timetable. steps.
  - unfold update_timetable. steps.
  - unfold delete_timetable. steps.
Qed.

(** C9. Whatever the request, the handler that answers it changes no
    identifier: in every collection the identifiers stay as they are
    position by position, or one record is removed, or one record is
    added last under an identifier the store chose and no record had; so
    identifiers that were distinct stay distinct.  Every update call the
    handler makes sets a document without [_id]. *)
Theorem identifiers_never_change
    (r : request) (w w' : World) (o : outcome response_body) :
  app r w = (o, w') ->
  (exists new, calls w' = calls w ++ new /\ Forall sets_no_id new) /\
  match db w, db w' with
  | Some d, Some d' =>
      forall name,
        id_step (records name d) (records name d') /\
        (NoDup (ids (records name d)) -> NoDup (ids (records name d')))
  | None, None => True
  | _, _ => False
  end.
Proof.
  intros Hrun. destruct (respects_app r _ _ _ Hrun) as [Hlog Hstep].
  split; [done|].
  destruct (db w), (db w'); try done.
  intros name. split; [done|]. by apply id_step_NoDup.
Qed.

(** ** The partial models *)

(** An update of a record the collection has: the handler answers with
    the record laid under the update document, and that is the record
    the collection then has under the identifier. *)
Lemma update_result_found name invalid not_found dump id w d oid doc :
  db w = Some d -> db_fault d = None -> ObjectId_of_str id = Some oid ->
  dump !! "_id" = None -> not_None dump ≠ ∅ ->
  encodable (<["updated_at" := db_localTime d]> (not_None dump)) = true ->
  List.find (has_id oid) (records name d) = Some doc ->
  exists docs,
    update_result name invalid not_found dump id w
    = (Ok (Some (serialized
                   (<["updated_at" := db_localTime d]> (not_None dump) ∪ doc))),
       logged [Command "isMaster";
               UpdateOne name oid (<["updated_at" := db_localTime d]> (not_None dump));
               FindOne name oid]
              (set_records name docs d) w) /\
    List.find (has_id oid) docs
    = Some (<["updated_at" := db_localTime d]> (not_None dump) ∪ doc).
Proof.
  intros Hdb Hfault Hid Hnoid Hsome Hfits Hfind.
  unfold update_result. rewrite Hdb, Hid, decide_False, Hfault, Hfits by done.
  destruct (set_first oid _ (records name d)) as [docs|] eqn:Hset.
  - apply set_first_found in Hset as (doc0 & Hfind0 & Hfind').
    + rewrite Hfind in Hfind0. injection Hfind0 as <-.
      exists docs. by rewrite Hfind'.
    + rewrite lookup_insert_ne by done.
      apply not_None_lookup. by left.
  - apply set_first_find in Hset. by rewrite Hset in Hfind.
Qed.

Lemma course_change_data s y c :
  not_None (CourseUpdate_model_dump (course_change s y c))
  = <["semester" := VStr s]> (<["year" := VInt y]> (<["credits" := VInt c]> ∅)).
Proof. reflexivity. Qed.

Lemma slot_change_data s y day :
  not_None (TimetableUpdate_model_dump (slot_change s y day))
  = <["semester" := VStr s]> (<["year" := VInt y]> (<["day" := VStr day]> ∅)).
Proof. reflexivity. Qed.

Lemma bounded_out name ge le z :
  ~ (ge <= z <= le) -> exists kind, bounded name ge le z = [(name, kind)].
Proof.
  intros Hz. unfold bounded.
  destruct (Z.ltb_spec z ge); [by eauto|].
  destruct (Z.ltb_spec le z); [by eauto|lia].
Qed.

Section Refused.

Variable to_int : value -> option Z.
Hypothesis to_int_integer : forall z, to_int (VInt z) = Some z.

Variable body : dict_of value.

Lemma required_int_refused name ge le z :
  body !! name = Some (VInt z) -> ~ (ge <= z <= le) ->
  exists es, required_int to_int name ge le body = inl es.
Proof.
  intros Hz [kind Hb]%(bounded_out name). unfold required_int.
  rewrite Hz, to_int_integer, Hb. by eexists.
Qed.

Lemma optional_int_refused name default ge le z :
  body !! name = Some (VInt z) -> ~ (ge <= z <= le) ->
  exists es, optional_int to_int name default ge le body = inl es.
Proof.
  intros Hz [kind Hb]%(bounded_out name). unfold optional_int.
  rewrite Hz, to_int_integer, Hb. by eexists.
Qed.

Lemma required_enum_refused {E} (of_str : string -> option E) name s :
  body !! name = Some (VStr s) -> of_str s = None ->
  required_enum of_str name body = inl [(name, EnumValue)].
Proof. intros Hs Hnone. unfold required_enum. by rewrite Hs, Hnone. Qed.

(** A body that validates has passed the check of each field. *)
Lemma Course_validate_fields c :
  Course_validate to_int body = inr c ->
  required_enum Semester_of_str "semester" body = inr (co_semester c) /\
  required_int to_int "year" 2000 2100 body = inr (co_year c) /\
  optional_int to_int "credits" (Some 3) 0 30 body = inr (co_credits c).
Proof.
  unfold Course_validate.
  destruct (required_str "code" body); [|destruct (required_str "title" body)];
    try discriminate.
  destruct (required_enum Semester_of_str "semester" body); try discriminate.
  destruct (required_int to_int "year" 2000 2100 body); try discriminate.
  destruct (optional_str "lecturer" body); try discriminate.
  destruct (optional_int to_int "credits" (Some 3) 0 30 body); try discriminate.
  destruct (optional_str "description" body); try discriminate.
  by intros [= <-].
Qed.

Lemma Timetable_validate_fields t :
  Timetable_validate to_int body = inr t ->
  required_enum Semester_of_str "semester" body = inr (tt_semester t) /\
  required_int to_int "year" 2000 2100 body = inr (tt_year t) /\
  required_enum DayOfWeek_of_str "day" body = inr (tt_day t).
Proof.
  unfold Timetable_validate.
  destruct (required_enum Semester_of_str "semester" body); try discriminate.
  destruct (required_int to_int "year" 2000 2100 body); try discriminate.
  destruct (required_enum DayOfWeek_of_str "day" body); try discriminate.
  destruct (required_str "start_time" body); try discriminate.
  destruct (required_str "end_time" body); try discriminate.
  destruct (required_str "course_code" body); try discriminate.
  destruct (optional_str "venue" body); try discriminate.
  destruct (optional_str "lecturer" body); try discriminate.
  destruct (optional_str "notes" body); try discriminate.
  by intros [= <-].
Qed.

(** Validation refuses a course whose semester, year or credits are not
    what the model allows, and a slot whose semester, year or day are
    not. *)
Lemma Course_validate_refuses s y c :
  body !! "semester" = Some (VStr s) -> body !! "year" = Some (VInt y) ->
  body !! "credits" = Some (VInt c) ->
  Semester_of_str s = None \/ ~ (2000 <= y <= 2100) \/ ~ (0 <= c <= 30) ->
  exists es, Course_validate to_int body = inl es.
Proof.
  intros Hs Hy Hc Hout.
  destruct (Course_validate to_int body) as [es|course] eqn:Hv; [by eexists|].
  apply Course_validate_fields in Hv as (Hsem & Hyear & Hcred).
  destruct Hout as [Hout|[Hout|Hout]].
  - by rewrite (required_enum_refused _ _ _ Hs Hout) in Hsem.
  - destruct (required_int_refused _ 2000 2100 _ Hy Hout) as [es Hes].
    by rewrite Hes in Hyear.
  - destruct (optional_int_refused _ (Some 3) 0 30 _ Hc Hout) as [es Hes].
    by rewrite Hes in Hcred.
Qed.

Lemma Timetable_validate_refuses s y day :
  body !! "semester" = Some (VStr s) -> body !! "year" = Some (VInt y) ->
  body !! "day" = Some (VStr day) ->
  Semester_of_str s = None \/ ~ (2000 <= y <= 2100) \/ DayOfWeek_of_str day = None ->
  exists es, Timetable_validate to_int body = inl es.
Proof.
  intros Hs Hy Hd Hout.
  destruct (Timetable_validate to_int body) as [es|slot] eqn:Hv; [by eexists|].
  apply Timetable_validate_fields in Hv as (Hsem & Hyear & Hday).
  destruct Hout as [Hout|[Hout|Hout]].
  - by rewrite (required_enum_refused _ _ _ Hs Hout) in Hsem.
  - destruct (required_int_refused _ 2000 2100 _ Hy Hout) as [es Hes].
    by rewrite Hes in Hyear.
  - by rewrite (required_enum_refused _ _ _ Hd Hout) in Hday.
Qed.

End Refused.

(** C10. The partial models carry no bound and no enumeration.  With a
    database handle and a server that answers, for every text [s] and
    [day] and all integers [y] and [c] that fit in eight bytes: the
    update of a stored course with the semester [s], the year [y] and
    the credits [c] succeeds, and the record then stored under the
    identifier has exactly these three values, the clock of the server
    as [updated_at], and every other field as before; likewise the
    update of a stored timetable slot with [s], [y] and [day].  When one
    of the values is outside what the full model allows (a year outside
    2000..2100, credits outside 0..30, a semester or a day that is no
    member of its enumeration), validation at creation refuses the
    record that the update has stored. *)
Theorem update_models_unconstrained
    (id : string) (oid : ObjectId) (w : World) (d : Database)
    (s day : string) (y c : Z) :
  db w = Some d -> db_fault d = None -> ObjectId_of_str id = Some oid ->
  fits (db_localTime d) = true -> int64 y = true -> int64 c = true ->
  (forall doc,
     List.find (has_id oid) (records "course" d) = Some doc ->
     exists result w' d' doc',
       update_course id (course_change s y c) w = (Ok result, w') /\
       db w' = Some d' /\
       List.find (has_id oid) (records "course" d') = Some doc' /\
       doc' !! "semester" = Some (VStr s) /\
       doc' !! "year" = Some (VInt y) /\
       doc' !! "credits" = Some (VInt c) /\
       (forall k, k ∉ ["semester"; "year"; "credits"; "updated_at"] ->
                  doc' !! k = doc !! k) /\
       (forall to_int,
          (forall z, to_int (VInt z) = Some z) ->
          Semester_of_str s = None \/ ~ (2000 <= y <= 2100) \/ ~ (0 <= c <= 30) ->
          exists es, Course_validate to_int doc' = inl es)) /\
  (forall doc,
     List.find (has_id oid) (records "timetable" d) = Some doc ->
     exists result w' d' doc',
       update_timetable id (slot_change s y day) w = (Ok result, w') /\
       db w' = Some d' /\
       List.find (has_id oid) (records "timetable" d') = Some doc' /\
       doc' !! "semester" = Some (VStr s) /\
       doc' !! "year" = Some (VInt y) /\
       doc' !! "day" = Some (VStr day) /\
       (forall k, k ∉ ["semester"; "year"; "day"; "updated_at"] ->
                  doc' !! k = doc !! k) /\
       (forall to_int,
          (forall z, to_int (VInt z) = Some z) ->
          Semester_of_str s = None \/ ~ (2000 <= y <= 2100) \/
          DayOfWeek_of_str day = None ->
          exists es, Timetable_validate to_int doc' = inl es)).
Proof.
  intros Hdb Hfault Hid Hnow Hy Hc. split; intros doc Hfind.
  - assert (not_None (CourseUpdate_model_dump (course_change s y c)) ≠ ∅) as Hsome.
    { rewrite course_change_data. apply insert_non_empty. }
    assert (encodable (<["updated_at" := db_localTime d]>
                         (not_None (CourseUpdate_model_dump (course_change s y c))))
            = true) as Hfits.
    { rewrite course_change_data. apply bool_decide_eq_true_2.
      repeat (apply map_Forall_insert_2; [first [assumption|reflexivity]|]).
      apply map_Forall_empty. }
    destruct (update_result_found "course" "Invalid course id" "Course not found"
                (CourseUpdate_model_dump (course_change s y c)) id w d oid doc
                Hdb Hfault Hid eq_refl Hsome Hfits Hfind)
      as (docs & Hrun & Hfind').
    rewrite course_change_data in Hrun, Hfind'.
    eexists _, _, (set_records "course" docs d), _.
    split; [rewrite update_course_run; exact Hrun|].
    split; [reflexivity|].
    split; [rewrite records_set_records; exact Hfind'|].
    assert (forall k v,
              (<["updated_at" := db_localTime d]>
                 (<["semester" := VStr s]>
                    (<["year" := VInt y]> (<["credits" := VInt c]> ∅))) : document)
              !! k = Some v ->
              (<["updated_at" := db_localTime d]>
                 (<["semester" := VStr s]>
                    (<["year" := VInt y]> (<["credits" := VInt c]> ∅))) ∪ doc)
              !! k = Some v) as Hset
      by (intros k v; apply lookup_union_Some_l).
    split_and!.
    + by apply Hset.
    + by apply Hset.
    + by apply Hset.
    + intros k Hk. apply lookup_union_r.
      repeat apply not_elem_of_cons in Hk as [? Hk].
      rewrite !lookup_insert_ne by congruence.
      apply lookup_empty.
    + intros to_int Hint Hout.
      apply (Course_validate_refuses to_int Hint _ s y c);
        [by apply Hset..|exact Hout].
  - assert (not_None (TimetableUpdate_model_dump (slot_change s y day)) ≠ ∅)
      as Hsome.
    { rewrite slot_change_data. apply insert_non_empty. }
    assert (encodable (<["updated_at" := db_localTime d]>
                         (not_None (TimetableUpdate_model_dump (slot_change s y day))))
            = true) as Hfits.
    { rewrite slot_change_data. apply bool_decide_eq_true_2.
      repeat (apply map_Forall_insert_2; [first [assumption|reflexivity]|]).
      apply map_Forall_empty. }
    destruct (update_result_found "timetable" "Invalid timetable id"
                "Timetable slot not found"
                (TimetableUpdate_model_dump (slot_change s y day)) id w d oid doc
                Hdb Hfault Hid eq_refl Hsome Hfits Hfind)
      as (docs & Hrun & Hfind').
    rewrite slot_change_data in Hrun, Hfind'.
    eexists _, _, (set_records "timetable" docs d), _.
    split; [rewrite update_timetable_run; exact Hrun|].
    split; [reflexivity|].
    split; [rewrite records_set_records; exact Hfind'|].
    assert (forall k v,
              (<["updated_at" := db_localTime d]>
                 (<["semester" := VStr s]>
                    (<["year" := VInt y]> (<["day" := VStr day]> ∅))) : document)
              !! k = Some v ->
              (<["updated_at" := db_localTime d]>
                 (<["semester" := VStr s]>
                    (<["year" := VInt y]> (<["day" := VStr day]> ∅))) ∪ doc)
              !! k = Some v) as Hset
      by (intros k v; apply lookup_union_Some_l).
    split_and!.
    + by apply Hset.
    + by apply Hset.
    + by apply Hset.
    + intros k Hk. apply lookup_union_r.
      repeat apply not_elem_of_cons in Hk as [? Hk].
      rewrite !lookup_insert_ne by congruence.
      apply lookup_empty.
    + intros to_int Hint Hout.
      apply (Timetable_validate_refuses to_int Hint _ s y day);
        [by apply Hset..|exact Hout].
Qed.

(** ** Runs on the sample store *)

Lemma only_field_check (dump : document) (x : string) :
  bool_decide (map_Forall (fun k v => k = x \/ v = VNone) dump) = true ->
  forall k v, dump !! k = Some v -> k ≠ x -> v = VNone.
Proof.
  intros Hall%bool_decide_eq_true_1 k v Hk Hne.
  by destruct (Hall k v Hk).
Qed.

Lemma no_field_check (dump : document) :
  bool_decide (map_Forall (fun _ v => v = VNone) dump) = true ->
  forall k v, dump !! k = Some v -> v = VNone.
Proof. intros Hall%bool_decide_eq_true_1 k v Hk. by apply (Hall k v). Qed.

Lemma no_overflow_check (dump : document) :
  bool_decide (map_Forall (fun _ v => fits v = true) dump) = true ->
  forall k z, dump !! k = Some (VInt z) -> int64 z = true.
Proof. intros Hall%bool_decide_eq_true_1 k z Hk. by apply (Hall k (VInt z)). Qed.

(** The text of sixteen digits and eight blanks is an identifier for
    [ObjectId], of eight bytes: the delete handler takes it to the
    store, finds no record, and answers 404. *)
Example spaced_id_reaches_store :
  String.length spaced = 24%nat /\
  ObjectId_of_str spaced = Some (Oid [0; 0; 0; 0; 0; 0; 0; 0]%N) /\
  delete_event spaced world1
  = (HTTPException 404 "Event not found",
     logged [DeleteOne "event" (Oid [0; 0; 0; 0; 0; 0; 0; 0]%N)] store1 world1).
Proof. split_and!; evaluate. Qed.

Lemma update_changes_only_supplied_field_witness :
  (forall k v, model_dump (OfEvent main_hall) !! k = Some v ->
               k ≠ "location" -> v = VNone) /\
  update_route id1 (OfEvent main_hall) world1
    = (Ok (Some (serialized open_day_moved)), world1_moved) /\
  exists d d' oid doc',
    db world1 = Some d /\ db world1_moved = Some d' /\
    ObjectId_of_str id1 = Some oid /\
    (forall name,
       only_changes ["location"; "updated_at"] (records name d) (records name d')) /\
    List.find (has_id oid) (records "event" d') = Some doc' /\
    is_Some (model_dump (OfEvent main_hall) !! "location") /\
    doc' !! "location" = model_dump (OfEvent main_hall) !! "location" /\
    doc' !! "updated_at" = Some (db_localTime d) /\
    Some (serialized open_day_moved) = serialize_fresh (Some doc').
Proof.
  assert (forall k v, model_dump (OfEvent main_hall) !! k = Some v ->
                      k ≠ "location" -> v = VNone) as Honly
    by (apply only_field_check; evaluate).
  assert (update_route id1 (OfEvent main_hall) world1
          = (Ok (Some (serialized open_day_moved)), world1_moved)) as Hrun
    by evaluate.
  split; [exact Honly|]. split; [exact Hrun|].
  exact (update_changes_only_supplied_field
           "location" id1 (OfEvent main_hall) world1 world1_moved _ Honly Hrun).
Defined.

Lemma malformed_id_rejected_witness :
  ObjectId_of_str "not-an-id" = None /\
  (forall p, exists detail,
     update_route "not-an-id" p world1 = (HTTPException 400 detail, world1)) /\
  (forall e, exists detail,
     delete_route e "not-an-id" world1 = (HTTPException 400 detail, world1)).
Proof.
  split; [reflexivity|].
  exact (malformed_id_rejected "not-an-id" world1 eq_refl).
Defined.

(** C2, as stated, fails without a database handle: the handlers check the
    handle before they look at the identifier, and answer 500. *)
Lemma malformed_id_without_database :
  ObjectId_of_str "not-an-id" = None /\
  delete_event "not-an-id" unconfigured
    = (HTTPException 500 unavailable, unconfigured) /\
  update_event "not-an-id" main_hall unconfigured
    = (HTTPException 500 unavailable, unconfigured) /\
  ~ (exists detail,
       delete_event "not-an-id" unconfigured
       = (HTTPException 400 detail, unconfigured)).
Proof.
  split_and!; [reflexivity..|].
  intros [detail Hrun]. discriminate Hrun.
Qed.

Lemma absent_id_not_found_witness :
  db world1 = Some store1 /\ db_fault store1 = None /\
  ObjectId_of_str id2 = Some (ObjectId_of_N 2) /\
  (exists detail w',
     delete_route EventEntity id2 world1 = (HTTPException 404 detail, w') /\
     db w' = Some store1) /\
  (exists detail w',
     update_route id2 (OfEvent main_hall) world1 = (HTTPException 404 detail, w') /\
     db w' = Some store1).
Proof.
  assert (forall doc : document,
            doc ∈ records "event" store1 ->
            doc !! "_id" ≠ Some (VObjectId (ObjectId_of_N 2))) as Habsent.
  { assert (records "event" store1 = [open_day]) as -> by evaluate.
    intros doc ->%list_elem_of_singleton.
    assert (open_day !! "_id" = Some (VObjectId (ObjectId_of_N 1))) as -> by evaluate.
    discriminate. }
  assert (ObjectId_of_str id2 = Some (ObjectId_of_N 2)) as Hid by evaluate.
  destruct (absent_id_not_found id2 (ObjectId_of_N 2) world1 store1 eq_refl eq_refl Hid)
    as [Hdelete Hupdate].
  split_and!; [reflexivity|reflexivity|exact Hid| |].
  - exact (Hdelete EventEntity Habsent).
  - refine (Hupdate (OfEvent main_hall) (VStr "Main Hall") "location"
              _ _ _ eq_refl Habsent).
    + evaluate.
    + discriminate.
    + apply no_overflow_check. evaluate.
Defined.

(** C3, as stated, fails in four ways for an identifier that no record
    has.  An update without fields is refused with 400 before the store
    is asked.  Without a database handle the answer is 500.  With a
    server that does not answer, the error of the driver leaves the
    handler.  And an update that sends the year 2^63 ends in the
    overflow error of the encoder, before any record is looked for. *)
Lemma absent_id_other_answers :
  (ObjectId_of_str id2 = Some (ObjectId_of_N 2) /\
   ObjectId_of_str id3 = Some (ObjectId_of_N 3) /\
   List.find (has_id (ObjectId_of_N 2)) (records "event" store1) = None /\
   List.find (has_id (ObjectId_of_N 3)) (records "course" store1) = None) /\
  update_event id2 no_fields world1
    = (HTTPException 400 "No fields to update", world1) /\
  (delete_event id2 unconfigured = (HTTPException 500 unavailable, unconfigured) /\
   update_event id2 main_hall unconfigured
     = (HTTPException 500 unavailable, unconfigured)) /\
  (exists w',
     delete_event id2 unreachable = (Exception timed_out, w') /\
     calls w' = [DeleteOne "event" (ObjectId_of_N 2)]) /\
  (exists w',
     update_event id2 main_hall unreachable = (Exception timed_out, w') /\
     calls w' = [Command "isMaster"]) /\
  (int64 (2 ^ 63) = false /\
   exists w' fields,
     update_course id3 (course_change "Fall" (2 ^ 63) 3) world1
       = (Exception overflow, w') /\
     db w' = Some store1 /\
     calls w' = [Command "isMaster"; UpdateOne "course" (ObjectId_of_N 3) fields] /\
     fields !! "year" = Some (VInt (2 ^ 63))).
Proof.
  split_and!; try evaluate.
  - exists (logged [DeleteOne "event" (ObjectId_of_N 2)]
                   (default store1 (db unreachable)) unreachable).
    split; evaluate.
  - exists (logged [Command "isMaster"]
                   (default store1 (db unreachable)) unreachable).
    split; evaluate.
  - set (fields := <["updated_at" := noon]>
                     (not_None (CourseUpdate_model_dump
                                  (course_change "Fall" (2 ^ 63) 3)))).
    exists (logged [Command "isMaster"; UpdateOne "course" (ObjectId_of_N 3) fields]
                   store1 world1), fields.
    split_and!; evaluate.
Qed.

Lemma empty_update_rejected_witness :
  (forall k v, model_dump (OfEvent no_fields) !! k = Some v -> v = VNone) /\
  exists detail,
    update_route id1 (OfEvent no_fields) world1
    = (HTTPException 400 detail, world1).
Proof.
  assert (forall k v, model_dump (OfEvent no_fields) !! k = Some v -> v = VNone)
    as Hnone by (apply no_field_check; evaluate).
  split; [exact Hnone|].
  exact (empty_update_rejected id1 (OfEvent no_fields) world1 Hnone).
Defined.

(** C4, as stated, fails without a database handle: the answer is 500. *)
Lemma empty_update_without_database :
  (forall k v, model_dump (OfEvent no_fields) !! k = Some v -> v = VNone) /\
  update_event id1 no_fields unconfigured
    = (HTTPException 500 unavailable, unconfigured) /\
  ~ (exists detail,
       update_event id1 no_fields unconfigured
       = (HTTPException 400 detail, unconfigured)).
Proof.
  split_and!.
  - apply no_field_check. evaluate.
  - reflexivity.
  - intros [detail Hrun]. discriminate Hrun.
Qed.

Lemma course_body_valid : course_rest_valid course_body.
Proof.
  split_and!.
  - exists "GYD101". evaluate.
  - exists "Gender Studies". evaluate.
  - exists Fall. evaluate.
  - left. evaluate.
  - left. evaluate.
  - left. evaluate.
Qed.

Lemma slot_body_valid : slot_rest_valid slot_body.
Proof.
  split_and!.
  - exists Fall. evaluate.
  - exists Monday. evaluate.
  - exists "09:00". evaluate.
  - exists "10:30". evaluate.
  - exists "GYD101". evaluate.
  - left. evaluate.
  - left. evaluate.
  - left. evaluate.
Qed.

Lemma year_bounds_inclusive_witness :
  (forall z, strict_int (VInt z) = Some z) /\
  course_rest_valid course_body /\ slot_rest_valid slot_body /\
  ((exists c, Course_validate strict_int (<["year" := VInt 2000]> course_body) = inr c /\
              co_year c = 2000) /\
   (exists c, Course_validate strict_int (<["year" := VInt 2100]> course_body) = inr c /\
              co_year c = 2100) /\
   (exists t, Timetable_validate strict_int (<["year" := VInt 2000]> slot_body) = inr t /\
              tt_year t = 2000) /\
   (exists t, Timetable_validate strict_int (<["year" := VInt 2100]> slot_body) = inr t /\
              tt_year t = 2100)) /\
  ((exists es kind,
      Course_validate strict_int (<["year" := VInt 1999]> course_body) = inl es /\
      ("year", kind) ∈ es) /\
   (exists es kind,
      Course_validate strict_int (<["year" := VInt 2101]> course_body) = inl es /\
      ("year", kind) ∈ es) /\
   (exists es kind,
      Timetable_validate strict_int (<["year" := VInt 1999]> slot_body) = inl es /\
      ("year", kind) ∈ es) /\
   (exists es kind,
      Timetable_validate strict_int (<["year" := VInt 2101]> slot_body) = inl es /\
      ("year", kind) ∈ es)).
Proof.
  assert (forall z, strict_int (VInt z) = Some z) as Hint by reflexivity.
  split; [exact Hint|].
  split; [exact course_body_valid|]. split; [exact slot_body_valid|].
  split; split_and!.
  - destruct (year_bounds_inclusive strict_int course_body 2000 Hint) as [_ Hin].
    destruct (Hin ltac:(lia)) as [Hcourse _]. exact (Hcourse course_body_valid).
  - destruct (year_bounds_inclusive strict_int course_body 2100 Hint) as [_ Hin].
    destruct (Hin ltac:(lia)) as [Hcourse _]. exact (Hcourse course_body_valid).
  - destruct (year_bounds_inclusive strict_int slot_body 2000 Hint) as [_ Hin].
    destruct (Hin ltac:(lia)) as [_ Hslot]. exact (Hslot slot_body_valid).
  - destruct (year_bounds_inclusive strict_int slot_body 2100 Hint) as [_ Hin].
    destruct (Hin ltac:(lia)) as [_ Hslot]. exact (Hslot slot_body_valid).
  - destruct (year_bounds_inclusive strict_int course_body 1999 Hint) as [Hout _].
    destruct (Hout ltac:(lia)) as [Hcourse _]. exact Hcourse.
  - destruct (year_bounds_inclusive strict_int course_body 2101 Hint) as [Hout _].
    destruct (Hout ltac:(lia)) as [Hcourse _]. exact Hcourse.
  - destruct (year_bounds_inclusive strict_int slot_body 1999 Hint) as [Hout _].
    destruct (Hout ltac:(lia)) as [_ Hslot]. exact Hslot.
  - destruct (year_bounds_inclusive strict_int slot_body 2101 Hint) as [Hout _].
    destruct (Hout ltac:(lia)) as [_ Hslot]. exact Hslot.
Defined.

Lemma serialize_doc_contract_witness :
  heap1 !! 1%positive = Some open_day /\
  exists r1 h1 doc1,
    serialize_doc (RDict 1%positive) heap1 = (r1, h1) /\
    deref r1 h1 = Some doc1 /\
    doc1 !! "_id" = None /\
    doc1 !! "id" = Some (VStr "000000000000000000000001") /\
    doc1 !! "title" = Some (VStr "Open Day") /\
    doc1 !! "date" = Some (VStr "2025-03-01") /\
    h1 !! 1%positive = Some open_day /\
    exists r2 h2, serialize_doc r1 h1 = (r2, h2) /\ deref r2 h2 = Some doc1.
Proof.
  assert (heap1 !! 1%positive = Some open_day) as Hheld by evaluate.
  split; [exact Hheld|].
  destruct (serialize_doc_contract heap1 1%positive open_day Hheld)
    as (r1 & h1 & doc1 & Hrun & Hdoc1 & Hnoid & Hid & Hrest & Hkeep
        & r2 & h2 & Hrun2 & Hdoc2 & _).
  exists r1, h1, doc1. split_and!; [exact Hrun|exact Hdoc1|exact Hnoid| | | | |].
  - rewrite (Hid (VObjectId (ObjectId_of_N 1))) by evaluate. evaluate.
  - rewrite (Hrest "title") by done. evaluate.
  - rewrite (Hrest "date") by done. evaluate.
  - etrans; [apply Hkeep; by eexists|exact Hheld].
  - exists r2, h2. split; [exact Hrun2|exact Hdoc2].
Defined.


Lemma identifiers_never_change_witness :
  app (DeleteEvent id1) world1 = (Ok (Success true), world1_deleted) /\
  (exists new,
     calls world1_deleted = calls world1 ++ new /\ Forall sets_no_id new) /\
  forall name,
    id_step (records name store1)
            (records name (set_records "event" [] store1)) /\
    (NoDup (ids (records name store1)) ->
     NoDup (ids (records name (set_records "event" [] store1)))).
Proof.
  assert (app (DeleteEvent id1) world1 = (Ok (Success true), world1_deleted))
    as Hrun by evaluate.
  split; [exact Hrun|].
  exact (identifiers_never_change (DeleteEvent id1) world1 world1_deleted _ Hrun).
Defined.

Lemma update_models_unconstrained_witness :
  (db world1 = Some store1 /\ db_fault store1 = None /\
   ObjectId_of_str id1 = Some (ObjectId_of_N 1) /\
   fits (db_localTime store1) = true /\
   int64 1999 = true /\ int64 31 = true) /\
  ((exists c, Course_validate strict_int gyd101 = inr c) /\
   List.find (has_id (ObjectId_of_N 1)) (records "course" store1) = Some gyd101 /\
   exists result w' d' doc',
     update_course id1 (course_change "Winter" 1999 31) world1 = (Ok result, w') /\
     db w' = Some d' /\
     List.find (has_id (ObjectId_of_N 1)) (records "course" d') = Some doc' /\
     doc' !! "semester" = Some (VStr "Winter") /\
     doc' !! "year" = Some (VInt 1999) /\
     doc' !! "credits" = Some (VInt 31) /\
     doc' !! "code" = Some (VStr "GYD101") /\
     exists es, Course_validate strict_int doc' = inl es) /\
  ((exists t, Timetable_validate strict_int monday_slot = inr t) /\
   List.find (has_id (ObjectId_of_N 1)) (records "timetable" store1)
   = Some monday_slot /\
   exists result w' d' doc',
     update_timetable id1 (slot_change "Winter" 1999 "Sunday") world1
     = (Ok result, w') /\
     db w' = Some d' /\
     List.find (has_id (ObjectId_of_N 1)) (records "timetable" d') = Some doc' /\
     doc' !! "semester" = Some (VStr "Winter") /\
     doc' !! "year" = Some (VInt 1999) /\
     doc' !! "day" = Some (VStr "Sunday") /\
     doc' !! "course_code" = Some (VStr "GYD101") /\
     exists es, Timetable_validate strict_int doc' = inl es).
Proof.
  assert (ObjectId_of_str id1 = Some (ObjectId_of_N 1)) as Hid by evaluate.
  assert (List.find (has_id (ObjectId_of_N 1)) (records "course" store1)
          = Some gyd101) as Hcourse by evaluate.
  assert (List.find (has_id (ObjectId_of_N 1)) (records "timetable" store1)
          = Some monday_slot) as Hslot by evaluate.
  destruct (update_models_unconstrained
              id1 (ObjectId_of_N 1) world1 store1 "Winter" "Sunday" 1999 31
              eq_refl eq_refl Hid eq_refl eq_refl eq_refl) as [Hc Ht].
  split; [split_and!; [reflexivity|reflexivity|exact Hid|reflexivity..]|].
  split.
  - destruct (Hc gyd101 Hcourse)
      as (result & w' & d' & doc' & Hrun & Hdb & Hfind & Hs & Hy & Hcr & Hrest & Hno).
    split.
    { exists {| co_code := "GYD101"; co_title := "Gender Studies";
                co_semester := Fall; co_year := 2025; co_lecturer := None;
                co_credits := Some 3; co_description := None |}.
      evaluate. }
    split; [exact Hcourse|].
    exists result, w', d', doc'.
    split_and!; [exact Hrun|exact Hdb|exact Hfind|exact Hs|exact Hy|exact Hcr| |].
    + rewrite Hrest by (intros Hin; repeat (apply elem_of_cons in Hin as [Hin|Hin];
                                            [discriminate|]);
                        by apply elem_of_nil in Hin).
      evaluate.
    + apply (Hno strict_int); [reflexivity|]. left. reflexivity.
  - destruct (Ht monday_slot Hslot)
      as (result & w' & d' & doc' & Hrun & Hdb & Hfind & Hs & Hy & Hday & Hrest & Hno).
    split.
    { exists {| tt_semester := Fall; tt_year := 2025; tt_day := Monday;
                tt_start_time := "09:00"; tt_end_time := "10:30";
                tt_course_code := "GYD101"; tt_venue := None; tt_lecturer := None;
                tt_notes := None |}.
      evaluate. }
    split; [exact Hslot|].
    exists result, w', d', doc'.
    split_and!; [exact Hrun|exact Hdb|exact Hfind|exact Hs|exact Hy|exact Hday| |].
    + rewrite Hrest by (intros Hin; repeat (apply elem_of_cons in Hin as [Hin|Hin];
                                            [discriminate|]);
                        by apply elem_of_nil in Hin).
      evaluate.
    + apply (Hno strict_int); [reflexivity|]. left. reflexivity.
Defined.

(* ===================================================================== *)
(** * More properties of the handlers *)
(* ===================================================================== *)

(** ** More on [serialize_doc] *)

(** X1. [serialize_doc] on a dictionary the caller holds: an empty one is
    returned as it is, the same object on the same heap; for any other
    the result is a new object, at an address the heap did not have, and
    every other object of the heap is as before. *)
Theorem serialize_doc_aliasing (h : heap) (l : loc) (doc : document) :
  h !! l = Some doc ->
  exists r h',
    serialize_doc (RDict l) h = (r, h') /\
    (doc = ∅ -> r = RDict l /\ h' = h) /\
    (doc ≠ ∅ ->
     exists l', r = RDict l' /\ l' ≠ l /\ h !! l' = None /\
                dom h' = {[ l' ]} ∪ dom h /\
                forall l0, l0 ≠ l' -> h' !! l0 = h !! l0).
Proof.
  intros Hl. rewrite serialize_doc_run, (obj_lookup _ _ _ Hl).
  destruct (decide (doc = ∅)) as [He|Hne].
  - exists (RDict l), h. split_and!; [done|done|]. by intros [].
  - do 2 eexists. split_and!; [done|by intros ?|]. intros _.
    assert (h !! fresh (dom h) = None) as Hfresh
      by apply not_elem_of_dom, is_fresh.
    exists (fresh (dom h)). split_and!; [done| |done| |].
    + intros Heq. rewrite Heq in Hfresh. congruence.
    + apply dom_insert_L.
    + intros l0 Hl0. by apply lookup_insert_ne.
Qed.

Lemma serialized_lookup_id doc : serialized doc !! "_id" = None.
Proof. unfold serialized. by rewrite lookup_fmap, renamed_lookup_id. Qed.

Lemma rendered_no_raw_date v : hasattr_isoformat (rendered v) = false.
Proof. by destruct v. Qed.

Lemma serialized_is_plain (doc : document) :
  serialized doc !! "_id" = None /\ no_raw_date (serialized doc).
Proof.
  split; [apply serialized_lookup_id|].
  intros k v Hk. unfold serialized in Hk. rewrite lookup_fmap in Hk.
  apply fmap_Some in Hk as (v0 & _ & ->). apply rendered_no_raw_date.
Qed.

(** X2. What a handler answers with for a record has no field [_id] and
    no value that is a date or a datetime: every field is one the JSON
    encoder takes. *)
Theorem serialized_record_is_plain (doc : document) (k : string) (v : value) :
  serialize_record doc !! k = Some v ->
  k ≠ "_id" /\ hasattr_isoformat v = false.
Proof.
  rewrite serialize_record_serialized. intros Hk.
  destruct (serialized_is_plain doc) as [Hid Hplain]. split.
  - intros ->. by rewrite Hid in Hk.
  - by apply (Hplain k).
Qed.

(** X3. The fields of a serialized record: those of the record, with
    [id] in the place of [_id] when the record has one. *)
Theorem serialized_record_fields (doc : document) :
  dom (serialize_record doc)
  = if decide (is_Some (doc !! "_id"))
    then {[ "id" ]} ∪ dom doc ∖ {[ "_id" ]}
    else dom doc.
Proof.
  rewrite serialize_record_serialized. unfold serialized, renamed.
  rewrite dom_fmap_L.
  destruct (doc !! "_id") as [v|] eqn:Hid.
  - rewrite decide_True by eauto. by rewrite dom_insert_L, dom_delete_L.
  - by rewrite decide_False by (intros [? ?]; congruence).
Qed.

(** ** Identifiers as text *)

Lemma hex_char_digit (d : N) :
  (d < 16)%N -> hex_digit (hex_char d) = Some d /\ isspace (hex_char d) = false.
Proof.
  intros Hd.
  assert (d = 0 \/ d = 1 \/ d = 2 \/ d = 3 \/ d = 4 \/ d = 5 \/ d = 6 \/ d = 7 \/
          d = 8 \/ d = 9 \/ d = 10 \/ d = 11 \/ d = 12 \/ d = 13 \/ d = 14 \/
          d = 15)%N as Hcases by lia.
  repeat (destruct Hcases as [->|Hcases]; [split; reflexivity|]).
  subst. split; reflexivity.
Qed.

Lemma hexlify_length bytes :
  String.length (hexlify bytes) = (2 * length bytes)%nat.
Proof. induction bytes as [|b bytes IH]; simpl; [done|]. rewrite IH. lia. Qed.

Lemma fromhex_hexlify bytes :
  Forall (fun b => (b < 256)%N) bytes -> fromhex (hexlify bytes) = Some bytes.
Proof.
  induction 1 as [|b bytes Hb _ IH]; [done|].
  cbn [hexlify fromhex].
  destruct (hex_char_digit (b / 16)) as [Htop Hblank].
  { apply N.Div0.div_lt_upper_bound. lia. }
  destruct (hex_char_digit (b mod 16)) as [Hbot _].
  { apply N.mod_lt. lia. }
  rewrite Hblank, Htop, Hbot, IH. cbn [fmap option_fmap option_map].
  do 2 f_equal. symmetry. by apply N.div_mod.
Qed.

Lemma hex_digit_bound c d : hex_digit c = Some d -> (d < 16)%N.
Proof.
  unfold hex_digit. cbv zeta. intros Hd.
  repeat match type of Hd with
         | (if ?b then _ else _) = _ => destruct b eqn:?
         end;
    try discriminate; injection Hd as <-;
    repeat match goal with
           | Hb : (_ && _)%bool = true |- _ =>
               apply andb_true_iff in Hb as [?%N.leb_le ?%N.leb_le]
           end;
    lia.
Qed.

(** What [bytes.fromhex] reads has at most one byte for two characters. *)
Lemma fromhex_bytes n : forall s bytes,
  (String.length s <= n)%nat -> fromhex s = Some bytes ->
  (2 * length bytes <= String.length s)%nat /\
  Forall (fun b => (b < 256)%N) bytes.
Proof.
  induction n as [|n IH]; intros s bytes Hn.
  - destruct s; [|simpl in Hn; lia]. intros [= <-]. by split.
  - destruct s as [|c rest]; [intros [= <-]; by split|].
    cbn [fromhex]. simpl in Hn.
    destruct (isspace c).
    { intros Hrest. destruct (IH rest bytes ltac:(lia) Hrest). simpl. split; [lia|done]. }
    destruct (hex_digit c) as [top|] eqn:Htop; [|done].
    destruct rest as [|c' rest']; [done|].
    destruct (hex_digit c') as [bot|] eqn:Hbot; [|done].
    simpl in Hn.
    intros (rest_bytes & Hrest & ->)%fmap_Some.
    destruct (IH rest' rest_bytes ltac:(lia) Hrest) as [Hlen Hall].
    apply hex_digit_bound in Htop, Hbot.
    simpl. split; [lia|]. constructor; [lia|done].
Qed.

(** X4. The text of an identifier of twelve bytes has twenty-four
    characters, and [ObjectId] reads the identifier back from it. *)
Theorem ObjectId_text_round_trip (o : ObjectId) :
  twelve_bytes o ->
  String.length (ObjectId_str o) = 24%nat /\
  ObjectId_of_str (ObjectId_str o) = Some o.
Proof.
  destruct o as [binary]. intros [Hlen Hall].
  unfold ObjectId_of_str, ObjectId_str.
  rewrite hexlify_length, Hlen. split; [done|].
  cbn [Nat.mul Nat.add Nat.eqb]. by rewrite fromhex_hexlify.
Qed.

(** X5. An identifier that [ObjectId] reads from a text has at most
    twelve bytes, each below 256: fewer than twelve when the text has
    blanks, since every byte takes two of the twenty-four characters. *)
Theorem ObjectId_of_str_bytes (s : string) (binary : list N) :
  ObjectId_of_str s = Some (Oid binary) ->
  (length binary <= 12)%nat /\ Forall (fun b => (b < 256)%N) binary.
Proof.
  unfold ObjectId_of_str.
  destruct (String.length s =? 24)%nat eqn:Hlen; [|done].
  apply Nat.eqb_eq in Hlen.
  intros (bytes & Hbytes & [= <-])%fmap_Some.
  destruct (fromhex_bytes _ s binary (Nat.le_refl _) Hbytes) as [Hshort Hall].
  split; [lia|done].
Qed.

(** X6. The [id] of a serialized record is a text that the update and
    delete routes take: twenty-four characters that [ObjectId] reads
    back as the [_id] of the record. *)
Theorem serialized_id_parses_back (doc : document) (o : ObjectId) :
  doc !! "_id" = Some (VObjectId o) -> twelve_bytes o ->
  exists text,
    serialize_record doc !! "id" = Some (VStr text) /\
    String.length text = 24%nat /\
    ObjectId_of_str text = Some o.
Proof.
  intros Hid Hbytes. exists (ObjectId_str o).
  rewrite serialize_record_serialized. unfold serialized, renamed.
  rewrite Hid, lookup_fmap, lookup_insert_eq. split; [done|].
  destruct o as [binary]. destruct Hbytes as [Hlen Hall].
  unfold ObjectId_of_str, ObjectId_str.
  rewrite hexlify_length, Hlen. split; [done|].
  cbn [Nat.mul Nat.add Nat.eqb]. by rewrite fromhex_hexlify.
Qed.

(** ** Updates and deletes, record by record *)

Section FirstMatch.

Implicit Types (docs before after : list document) (doc fields : document)
  (oid : ObjectId).

Lemma has_id_true oid doc :
  has_id oid doc = true <-> doc !! "_id" = Some (VObjectId oid).
Proof. apply bool_decide_eq_true. Qed.

Lemma has_id_false oid doc :
  has_id oid doc = false <-> doc !! "_id" ≠ Some (VObjectId oid).
Proof. apply bool_decide_eq_false. Qed.

Lemma set_first_split oid fields docs docs' :
  set_first oid fields docs = Some docs' ->
  exists before doc after,
    docs = before ++ doc :: after /\ docs' = before ++ (fields ∪ doc) :: after /\
    first_with oid before doc.
Proof.
  revert docs'.
  induction docs as [|doc docs IH]; intros docs' Hset; simpl in *; [done|].
  destruct (has_id oid doc) eqn:Hid.
  - inversion Hset; subst docs'. exists [], doc, docs.
    split_and!; [done|done|]. split; [constructor|by apply has_id_true].
  - apply fmap_Some in Hset as (rest & Hrest & ->).
    destruct (IH _ Hrest) as (before & doc0 & after & -> & -> & Hbefore & Hdoc0).
    exists (doc :: before), doc0, after. split_and!; [done|done|].
    split; [|done]. constructor; [by apply has_id_false|done].
Qed.

Lemma remove_first_split_first oid docs docs' :
  remove_first oid docs = Some docs' ->
  exists before doc after,
    docs = before ++ doc :: after /\ docs' = before ++ after /\
    first_with oid before doc.
Proof.
  revert docs'.
  induction docs as [|doc docs IH]; intros docs' Hrem; simpl in *; [done|].
  destruct (has_id oid doc) eqn:Hid.
  - inversion Hrem; subst docs'. exists [], doc, docs.
    split_and!; [done|done|]. split; [constructor|by apply has_id_true].
  - apply fmap_Some in Hrem as (rest & Hrest & ->).
    destruct (IH _ Hrest) as (before & doc0 & after & -> & -> & Hbefore & Hdoc0).
    exists (doc :: before), doc0, after. split_and!; [done|done|].
    split; [|done]. constructor; [by apply has_id_false|done].
Qed.

Lemma find_first_with oid before doc after :
  first_with oid before doc ->
  List.find (has_id oid) (before ++ doc :: after) = Some doc.
Proof.
  intros [Hbefore Hdoc].
  induction Hbefore as [|doc0 before Hdoc0 _ IH]; simpl.
  - by rewrite (proj2 (has_id_true oid doc)).
  - by rewrite (proj2 (has_id_false oid doc0)).
Qed.

(** With distinct identifiers, nothing but the first match has the
    identifier. *)
Lemma unique_id_gone oid before doc after :
  first_with oid before doc ->
  NoDup (ids (before ++ doc :: after)) ->
  List.find (has_id oid) (before ++ after) = None.
Proof.
  intros [Hbefore Hdoc] Hnd. apply find_has_id_None.
  intros doc0 [Hin|Hin]%elem_of_app.
  - by eapply Forall_forall in Hbefore.
  - intros Hid0. unfold ids in Hnd. rewrite fmap_app, fmap_cons in Hnd.
    apply NoDup_app in Hnd as (_ & _ & Hnd). apply NoDup_cons in Hnd as [Hnotin _].
    apply Hnotin. rewrite Hdoc, <- Hid0. apply list_elem_of_fmap. by exists doc0.
Qed.

Lemma find_has_id_elem oid doc docs :
  doc ∈ docs -> doc !! "_id" = Some (VObjectId oid) ->
  is_Some (List.find (has_id oid) docs).
Proof.
  intros Hin Hid. destruct (List.find (has_id oid) docs) eqn:Hfind; [by eexists|].
  eapply find_none in Hfind; [|by apply list_elem_of_In].
  apply has_id_false in Hfind. done.
Qed.

End FirstMatch.

(** X7. A successful update, of any of the three entity types, read
    backwards: there was a database handle, the identifier was well
    formed, and the collection had a first record with it.  That record
    and no other is replaced, in its place: each field of the payload
    that is not [None] has the payload's value, [updated_at] is the clock
    of the server, every field the payload leaves [None] or does not have
    is as it was, and the answer is the new record, serialized. *)
Theorem update_applies_non_null_fields
    (id : string) (p : update_payload) (w w' : World) (result : option document) :
  update_route id p w = (Ok result, w') ->
  exists d oid before doc after doc',
    db w = Some d /\ ObjectId_of_str id = Some oid /\
    records (collection_of (entity_of p)) d = before ++ doc :: after /\
    first_with oid before doc /\
    db w' = Some (set_records (collection_of (entity_of p))
                              (before ++ doc' :: after) d) /\
    (forall k v, model_dump p !! k = Some v -> v ≠ VNone -> doc' !! k = Some v) /\
    doc' !! "updated_at" = Some (db_localTime d) /\
    (forall k v, model_dump p !! k = Some v -> v = VNone -> doc' !! k = doc !! k) /\
    (forall k, model_dump p !! k = None -> k ≠ "updated_at" ->
               doc' !! k = doc !! k) /\
    result = Some (serialize_record doc').
Proof.
  rewrite update_route_run. unfold update_result.
  set (name := collection_of (entity_of p)).
  destruct (db w) as [d|] eqn:Hdb; [|done].
  destruct (ObjectId_of_str id) as [oid|]; [|done].
  case_decide as Hempty; [done|].
  destruct (db_fault d); [done|].
  set (fields := <["updated_at" := db_localTime d]> (not_None (model_dump p))).
  destruct (encodable fields); [|done].
  destruct (set_first oid fields (records name d)) as [docs|] eqn:Hset; [|done].
  intros [= <- <-].
  destruct (set_first_split _ _ _ _ Hset)
    as (before & doc & after & Hdocs & -> & Hfirst).
  assert (fields !! "_id" = None) as Hid
    by apply not_None_no_id, model_dump_no_id.
  assert (forall k, k ≠ "updated_at" ->
                    fields !! k = not_None (model_dump p) !! k) as Hfields
    by (intros k Hk; unfold fields; by rewrite lookup_insert_ne).
  exists d, oid, before, doc, after, (fields ∪ doc).
  split_and!; try done.
  - intros k v Hk Hv. apply lookup_union_Some_l. rewrite Hfields.
    + by apply not_None_lookup_Some.
    + intros ->. by rewrite model_dump_no_updated_at in Hk.
  - apply lookup_union_Some_l. apply lookup_insert_eq.
  - intros k v Hk ->. apply lookup_union_r. rewrite Hfields.
    + apply not_None_lookup. by right.
    + intros ->. by rewrite model_dump_no_updated_at in Hk.
  - intros k Hk Hne. apply lookup_union_r. rewrite Hfields by done.
    apply not_None_lookup. by left.
  - rewrite serialize_record_serialized. f_equal.
    assert (has_id oid (fields ∪ doc) = true) as Hhas.
    { rewrite has_id_union by done. apply has_id_true, Hfirst. }
    rewrite (find_first_with oid before (fields ∪ doc) after); [done|].
    split; [apply Hfirst|by apply has_id_true].
Qed.

(** X8. A successful delete, of any of the three entity types, answers
    [true] and removes the first record with the identifier and nothing
    else: the records before it and after it stay, in their order. *)
Theorem delete_removes_first_match
    (e : entity) (id : string) (w w' : World) (flag : bool) :
  delete_route e id w = (Ok flag, w') ->
  flag = true /\
  exists d oid before doc after,
    db w = Some d /\ ObjectId_of_str id = Some oid /\
    records (collection_of e) d = before ++ doc :: after /\
    first_with oid before doc /\
    db w' = Some (set_records (collection_of e) (before ++ after) d).
Proof.
  rewrite delete_route_run. unfold delete_result.
  destruct (db w) as [d|] eqn:Hdb; [|done].
  destruct (ObjectId_of_str id) as [oid|]; [|done].
  destruct (db_fault d); [done|].
  destruct (remove_first oid (records (collection_of e) d)) as [docs|] eqn:Hrem;
    [|done].
  intros [= <- <-]. split; [done|].
  destruct (remove_first_split_first _ _ _ Hrem)
    as (before & doc & after & Hdocs & -> & Hfirst).
  by exists d, oid, before, doc, after.
Qed.

(** X9. Deleting twice: in a collection whose identifiers are distinct,
    after a successful delete the same request is answered with 404, and
    changes nothing. *)
Theorem delete_twice_not_found
    (e : entity) (id : string) (w w' : World) (d : Database) (flag : bool) :
  db w = Some d -> NoDup (ids (records (collection_of e) d)) ->
  delete_route e id w = (Ok flag, w') ->
  exists w'',
    delete_route e id w' = (HTTPException 404 (not_found_detail e), w'') /\
    db w'' = db w'.
Proof.
  intros Hdb Hnd. rewrite !delete_route_run. unfold delete_result. rewrite Hdb.
  destruct (ObjectId_of_str id) as [oid|]; [|done].
  destruct (db_fault d) eqn:Hfault; [done|].
  destruct (remove_first oid (records (collection_of e) d)) as [docs|] eqn:Hrem;
    [|done].
  intros [= <- <-]. cbn [db logged db_fault set_records]. rewrite Hfault.
  destruct (remove_first_split_first _ _ _ Hrem)
    as (before & doc & after & Hdocs & -> & Hfirst).
  rewrite Hdocs in Hnd.
  pose proof (unique_id_gone _ _ _ _ Hfirst Hnd) as Hgone.
  apply remove_first_find in Hgone.
  change {| db_collections := <[collection_of e := before ++ after]> (db_collections d);
            db_localTime := db_localTime d; db_fault := db_fault d |}
    with (set_records (collection_of e) (before ++ after) d).
  rewrite records_set_records, Hgone. by eexists.
Qed.


(** X11. An update that sends an integer of more than eight bytes, to a
    server that answers and under a well-formed identifier, ends in the
    overflow error of the encoder: whether or not a record has the
    identifier, nothing is written and no record is read back. *)
Theorem oversized_integer_update_fails
    (id : string) (oid : ObjectId) (p : update_payload) (w : World) (d : Database)
    (k : string) (z : Z) :
  db w = Some d -> db_fault d = None -> ObjectId_of_str id = Some oid ->
  model_dump p !! k = Some (VInt z) -> int64 z = false ->
  exists fields,
    update_route id p w
    = (Exception overflow,
       logged [Command "isMaster";
               UpdateOne (collection_of (entity_of p)) oid fields] d w) /\
    fields !! k = Some (VInt z).
Proof.
  intros Hdb Hfault Hid Hk Hz.
  assert (not_None (model_dump p) !! k = Some (VInt z)) as Hsent
    by by apply not_None_lookup_Some.
  assert (k ≠ "updated_at") as Hne
    by (intros ->; by rewrite model_dump_no_updated_at in Hk).
  exists (<["updated_at" := db_localTime d]> (not_None (model_dump p))).
  split; [|by rewrite lookup_insert_ne].
  rewrite update_route_run. unfold update_result.
  rewrite Hdb, Hid, Hfault, decide_False.
  - assert (encodable (<["updated_at" := db_localTime d]> (not_None (model_dump p)))
            = false) as ->; [|done].
    apply bool_decide_eq_false_2. intros Hall.
    specialize (Hall k (VInt z)). rewrite lookup_insert_ne in Hall by done.
    specialize (Hall Hsent). simpl in Hall. congruence.
  - intros Hempty. by rewrite Hempty, lookup_empty in Hsent.
Qed.

(** ** The routes together *)

(** Unfold a route down to the calls of the driver. *)
Ltac open_route :=
  unfold app, respond, read_root,
    list_events, create_event, update_event, delete_event,
    list_courses, create_course, update_course, delete_course,
    list_timetable, create_timetable, update_timetable, delete_timetable.

(** X12. The identifier a listing shows deletes the record it was shown
    for: with a server that answers, the [id] text of a serialized record
    of the collection, whose [_id] has twelve bytes, is accepted by the
    delete route, which answers [true] and leaves the collection one
    record shorter. *)
Theorem listed_id_deletes_record
    (e : entity) (w : World) (d : Database) (doc : document) (o : ObjectId)
    (text : string) :
  db w = Some d -> db_fault d = None ->
  doc ∈ records (collection_of e) d ->
  doc !! "_id" = Some (VObjectId o) -> twelve_bytes o ->
  serialize_record doc !! "id" = Some (VStr text) ->
  exists w' d',
    delete_route e text w = (Ok true, w') /\ db w' = Some d' /\
    S (length (records (collection_of e) d'))
    = length (records (collection_of e) d).
Proof.
  intros Hdb Hfault Hin Hid Hbytes Htext.
  assert (text = ObjectId_str o) as ->.
  { rewrite serialize_record_serialized in Htext. unfold serialized, renamed in Htext.
    rewrite Hid, lookup_fmap, lookup_insert_eq in Htext. by injection Htext. }
  assert (ObjectId_of_str (ObjectId_str o) = Some o) as Hparse.
  { destruct o as [binary]. destruct Hbytes as [Hlen Hall].
    unfold ObjectId_of_str, ObjectId_str.
    rewrite hexlify_length, Hlen. cbn [Nat.mul Nat.add Nat.eqb].
    by rewrite fromhex_hexlify. }
  rewrite delete_route_run. unfold delete_result. rewrite Hdb, Hparse, Hfault.
  destruct (find_has_id_elem o doc _ Hin Hid) as [found Hfound].
  destruct (remove_first o (records (collection_of e) d)) as [docs|] eqn:Hrem.
  - do 2 eexists. split_and!; [done|done|]. rewrite records_set_records.
    apply remove_first_split in Hrem as (docs1 & doc0 & docs2 & -> & ->).
    rewrite !length_app. simpl. lia.
  - apply remove_first_find in Hrem. congruence.
Qed.

(** X13. Without a database handle, every route that needs the store
    answers 500 with the same detail, and the world is as it was: no call
    of the driver is made. *)
Theorem no_handle_no_call (r : request) (w : World) :
  db w = None -> data_route r = true ->
  app r w = (HTTPException 500 unavailable, w).
Proof.
  intros Hdb Hdata.
  destruct r; try discriminate Hdata;
    open_route; unfold Store.bind, ensure_db_available; by rewrite Hdb.
Qed.

(** X14. With a handle whose server does not answer, a route that needs
    the store ends in the error of the driver, unless it refuses the
    request with 400 before it calls the store; the database is as it
    was. *)
Theorem unreachable_server_fails_data_routes
    (r : request) (w : World) (d : Database) (msg : string) :
  db w = Some d -> db_fault d = Some msg -> data_route r = true ->
  exists o w',
    app r w = (o, w') /\ db w' = Some d /\
    (o = Exception msg \/ exists detail, o = HTTPException 400 detail).
Proof.
  intros Hdb Hfault Hdata.
  destruct r; try discriminate Hdata;
    open_route;
    unfold get_documents, create_document, find, insert_one, delete_one,
      command_isMaster_localTime, driver, Store.bind, ensure_db_available,
      ObjectId_or_400, Store.raise, Store.ret;
    rewrite Hdb;
    repeat match goal with
    | |- context [ObjectId_of_str ?s] => destruct (ObjectId_of_str s)
    | |- context [decide ?P] => destruct (decide P)
    end;
    cbn [db]; rewrite ?Hdb, ?Hfault; cbn [db];
    do 2 eexists; (split_and!; [reflexivity|done|]); eauto.
Qed.

(** X15. The [GET] routes change nothing: whatever they answer, the
    database after the request is the database before it. *)
Theorem get_routes_change_nothing
    (r : request) (w w' : World) (o : outcome response_body) :
  reading r = true -> app r w = (o, w') -> db w' = db w.
Proof.
  intros Hreading Hrun.
  assert (reads_only (app r)) as Hreads.
  { destruct r; try discriminate Hreading; open_route; reads. }
  by destruct (Hreads _ _ _ Hrun).
Qed.

Section Outcomes.

Context {A B : Type}.

Lemma returns_ret (P : A -> Prop) a : P a -> returns P (Store.ret a).
Proof. by intros HP w a' w' [= <- <-]. Qed.

Lemma returns_raise (P : A -> Prop) code detail :
  returns P (@Store.raise A code detail).
Proof. by intros w a' w'. Qed.

Lemma returns_bind (P : B -> Prop) (m : M A) (k : A -> M B) :
  (forall a, returns P (k a)) -> returns P (Store.bind m k).
Proof.
  intros Hk w b w'. unfold Store.bind.
  destruct (m w) as [[a|c e|e] w1]; [|done..]. apply Hk.
Qed.

Variable R : World -> World -> Prop.
Hypothesis R_refl : forall w, R w w.
Hypothesis R_trans : forall w1 w2 w3, R w1 w2 -> R w2 w3 -> R w1 w3.

Lemma preserves_ret (a : A) : preserves R (Store.ret a).
Proof. intros w o w' [= <- <-]. apply R_refl. Qed.

Lemma preserves_raise code detail : preserves R (@Store.raise A code detail).
Proof. intros w o w' [= <- <-]. apply R_refl. Qed.

Lemma preserves_bind (m : M A) (k : A -> M B) :
  preserves R m -> (forall a, preserves R (k a)) -> preserves R (Store.bind m k).
Proof.
  intros Hm Hk w o w'. unfold Store.bind.
  destruct (m w) as [[a|c e|e] w1] eqn:Hrun; specialize (Hm _ _ _ Hrun).
  - intros Hrun'. eapply R_trans; [done|]. by eapply Hk.
  - by intros [= <- <-].
  - by intros [= <- <-].
Qed.

End Outcomes.

Lemma returns_respond {A} (P : response_body -> Prop) (wrap : A -> response_body)
    (m : M A) :
  returns (fun a => P (wrap a)) m -> returns P (respond wrap m).
Proof.
  intros Hm w b w'. unfold respond, Store.bind.
  destruct (m w) as [[a|c e|e] w1] eqn:Hrun; [|done..].
  intros [= <- <-]. by eapply Hm.
Qed.

(** X16. Every record in a 200 answer, of any route, has gone through
    [serialize_doc]: it has no field [_id], and no value that is a date
    or a datetime. *)
Theorem responses_are_serialized
    (r : request) (w w' : World) (b : response_body) :
  app r w = (Ok b, w') ->
  Forall (fun doc : document => doc !! "_id" = None /\ no_raw_date doc) (shown b).
Proof.
  revert w b w'.
  change (returns (fun b => Forall (fun doc : document =>
            doc !! "_id" = None /\ no_raw_date doc) (shown b)) (app r)).
  destruct r; unfold app; apply returns_respond; open_route;
    repeat first
      [ apply returns_bind; intros ?
      | apply returns_raise
      | case_decide
      | match goal with |- context [if ?c then _ else _] => destruct c end ];
    try (apply returns_ret; cbn [shown]; try done).
  all: lazymatch goal with
       | |- returns _ test_database => intros w a w' _; constructor
       | |- Forall _ (serialize_record <$> _) =>
           apply Forall_fmap, Forall_true; intros doc; cbn [compose];
           rewrite serialize_record_serialized; apply serialized_is_plain
       | |- context [serialize_fresh ?o] =>
           rewrite serialize_fresh_serialized; destruct o;
           cbn [fmap option_fmap option_map]; [|constructor];
           constructor; [apply serialized_is_plain|constructor]
       end.
Qed.

Lemma confined_refl t w : confined t w w.
Proof. unfold confined. by destruct (db w). Qed.

Lemma confined_trans t w1 w2 w3 :
  confined t w1 w2 -> confined t w2 w3 -> confined t w1 w3.
Proof.
  unfold confined. destruct (db w1), (db w2), (db w3); try done.
  intros H12 H23 name Hname. by rewrite H23, H12.
Qed.

Lemma confined_driver {A} t c (f : Database -> A * Database) :
  (forall d name, t ≠ Some name -> records name (f d).2 = records name d) ->
  preserves (confined t) (driver c f).
Proof.
  intros Hf w o w'. unfold driver, confined.
  destruct (db w) as [d|] eqn:Hdb.
  - destruct (db_fault d).
    + intros [= <- <-]. cbn [db]. by rewrite ?Hdb.
    + destruct (encodable (sent c)).
      * specialize (Hf d). destruct (f d) as [a d']. by intros [= <- <-].
      * intros [= <- <-]. cbn [db]. by rewrite ?Hdb.
  - intros [= <- <-]. by rewrite Hdb.
Qed.

Lemma confined_reads {A} t (m : M A) : reads_only m -> preserves (confined t) m.
Proof.
  intros Hm w o w' Hrun. destruct (Hm _ _ _ Hrun) as [_ Hdb].
  unfold confined. rewrite Hdb. by destruct (db w).
Qed.

Lemma confined_bind {A B} t (m : M A) (k : A -> M B) :
  preserves (confined t) m -> (forall a, preserves (confined t) (k a)) ->
  preserves (confined t) (Store.bind m k).
Proof.
  exact (preserves_bind (confined t) (confined_trans t) m k).
Qed.

Lemma confined_update_one name oid fields :
  preserves (confined (Some name)) (update_one name oid fields).
Proof.
  apply confined_driver. intros d name' Hne.
  destruct (set_first oid fields (records name d)); cbn [snd]; [|done].
  apply records_set_records_ne. congruence.
Qed.

Lemma confined_delete_one name oid :
  preserves (confined (Some name)) (delete_one name oid).
Proof.
  apply confined_driver. intros d name' Hne.
  destruct (remove_first oid (records name d)); cbn [snd]; [|done].
  apply records_set_records_ne. congruence.
Qed.

Lemma confined_insert_one name doc :
  preserves (confined (Some name)) (insert_one name doc).
Proof.
  apply confined_driver. intros d name' Hne. cbn [snd].
  apply records_set_records_ne. congruence.
Qed.

Lemma confined_create_document name data :
  preserves (confined (Some name)) (create_document name data).
Proof.
  unfold create_document.
  repeat first [apply confined_bind; [|intros ?]
               |apply confined_insert_one
               |apply confined_reads; solve [reads] ].
Qed.

(** Open a handler bind by bind, down to the calls of the driver. *)
Ltac confines :=
  repeat first
    [ apply confined_update_one
    | apply confined_delete_one
    | apply confined_create_document
    | apply confined_reads; solve [reads]
    | apply confined_bind; [|intros ?]
    | case_decide
    | match goal with |- context [if ?c then _ else _] => destruct c end ].

(** X17. A request changes no collection but its own: after any
    request, with any outcome, the application still has its database
    handle, and every collection other than the one the route works on
    has the records it had. *)
Theorem request_touches_own_collection
    (r : request) (w w' : World) (o : outcome response_body) (d : Database) :
  app r w = (o, w') -> db w = Some d ->
  exists d',
    db w' = Some d' /\
    forall name, target r ≠ Some name -> records name d' = records name d.
Proof.
  intros Hrun Hdb.
  assert (preserves (confined (target r)) (app r)) as Hconfined.
  { destruct r; cbn [target]; open_route; confines. }
  specialize (Hconfined _ _ _ Hrun). unfold confined in Hconfined.
  rewrite Hdb in Hconfined. destruct (db w') as [d'|]; [|done]. by exists d'.
Qed.

Section Answers.

Context {A B : Type}.
Variable codes : list Z.
Hypothesis ok : 200 ∈ codes.

Lemma answers_ret (a : A) : answers codes (Store.ret a).
Proof. by intros w. Qed.

Lemma answers_raise code detail :
  code ∈ codes -> answers codes (@Store.raise A code detail).
Proof. by intros Hcode w. Qed.

Lemma answers_bind (m : M A) (k : A -> M B) :
  answers codes m -> (forall a, answers codes (k a)) ->
  answers codes (Store.bind m k).
Proof.
  intros Hm Hk w. specialize (Hm w). unfold Store.bind.
  destruct (m w) as [[a|c e|e] w1]; [apply Hk|done..].
Qed.

Hypothesis failed : 500 ∈ codes.

Lemma answers_driver c (f : Database -> A * Database) : answers codes (driver c f).
Proof.
  intros w. unfold driver.
  destruct (db w) as [d|]; [|done].
  destruct (db_fault d); [done|].
  destruct (encodable (sent c)); [|done]. by destruct (f d).
Qed.

End Answers.

Lemma answers_ensure codes :
  200 ∈ codes -> 500 ∈ codes -> answers codes ensure_db_available.
Proof.
  intros H200 H500 w. unfold ensure_db_available. by destruct (db w).
Qed.

Lemma answers_ObjectId_or_400 codes s detail :
  200 ∈ codes -> 400 ∈ codes -> answers codes (ObjectId_or_400 s detail).
Proof.
  intros H200 H400 w. unfold ObjectId_or_400. by destruct (ObjectId_of_str s).
Qed.

Lemma answers_ObjectId_or_fail codes s :
  200 ∈ codes -> 500 ∈ codes -> answers codes (ObjectId_or_fail s).
Proof.
  intros H200 H500 w. unfold ObjectId_or_fail. by destruct (ObjectId_of_str s).
Qed.

Lemma answers_test_database codes : 200 ∈ codes -> answers codes test_database.
Proof.
  intros H200 w. unfold test_database.
  destruct (ensure_db_available w) as [[[]|c e|e] w1]; [|done..].
  by destruct (list_collection_names w1) as [[names|c e|e] w2].
Qed.

(** A status is one of the codes listed. *)
Ltac listed := solve [repeat first [apply list_elem_of_here | apply list_elem_of_further]].

(** Open a handler bind by bind, down to the calls of the driver. *)
Ltac statuses :=
  repeat lazymatch goal with
  | |- answers _ test_database => apply answers_test_database; listed
  | |- answers _ ensure_db_available => apply answers_ensure; listed
  | |- answers _ (ObjectId_or_400 _ _) => apply answers_ObjectId_or_400; listed
  | |- answers _ (ObjectId_or_fail _) => apply answers_ObjectId_or_fail; listed
  | |- answers _ (driver _ _) => apply answers_driver; listed
  | |- answers _ (Store.bind _ _) => apply answers_bind; [|intros ?]
  | |- answers _ (Store.ret _) => apply answers_ret; listed
  | |- answers _ (Store.raise _ _) => apply answers_raise; listed
  | |- answers _ (if ?c then _ else _) => destruct c
  | |- answers _ (match ?c with _ => _ end) => destruct c
  end.

(** X18. The status codes of the handlers, for a request whose
    parameters and body the framework has accepted.  [GET /] and
    [GET /test] always answer 200; the listings and the creations answer
    200 or 500; an update or a delete answers 200, 400, 404 or 500.  An
    exception that leaves a handler counts as 500. *)
Theorem route_statuses (r : request) (w : World) :
  status (app r w).1 ∈ possible r.
Proof.
  revert w. change (answers (possible r) (app r)).
  destruct r; cbn [possible]; open_route;
    unfold get_documents, create_document, find, find_one, insert_one,
      update_one, delete_one, command_isMaster_localTime;
    statuses.
Qed.

(** ** Runs of the further properties on the sample store *)

Lemma open_day_not_empty : open_day ≠ ∅.
Proof.
  intros Hempty.
  assert (open_day !! "title" = Some (VStr "Open Day")) as Htitle by evaluate.
  rewrite Hempty, lookup_empty in Htitle. discriminate Htitle.
Qed.

Lemma first_is_twelve_bytes : twelve_bytes (ObjectId_of_N 1).
Proof. split; [reflexivity|]. repeat constructor. Qed.

Lemma open_day_id : open_day !! "_id" = Some (VObjectId (ObjectId_of_N 1)).
Proof. evaluate. Qed.

Lemma events_of_store1 : records "event" store1 = [open_day].
Proof. evaluate. Qed.

Lemma list_events_world1 :
  app (GetEvents None) world1
  = (Ok (Records [serialize_record open_day]),
     logged [Find "event" ∅ None] store1 world1).
Proof. evaluate. Qed.

Lemma delete_event_world1 :
  app (DeleteEvent id1) world1 = (Ok (Success true), world1_deleted).
Proof. evaluate. Qed.

Lemma serialize_doc_aliasing_witness :
  heap1 !! 1%positive = Some open_day /\
  exists r h',
    serialize_doc (RDict 1%positive) heap1 = (r, h') /\
    exists l', r = RDict l' /\ l' ≠ 1%positive /\ heap1 !! l' = None /\
               h' !! 1%positive = Some open_day.
Proof.
  assert (heap1 !! 1%positive = Some open_day) as Hheld by evaluate.
  split; [exact Hheld|].
  destruct (serialize_doc_aliasing heap1 1%positive open_day Hheld)
    as (r & h' & Hrun & _ & Hnew).
  destruct (Hnew open_day_not_empty) as (l' & Hr & Hne & Hfree & _ & Hkeep).
  exists r, h'. split; [exact Hrun|].
  exists l'. split_and!; [exact Hr|exact Hne|exact Hfree|].
  rewrite Hkeep; [exact Hheld|]. intros Heq. apply Hne. symmetry. exact Heq.
Defined.

Lemma serialized_record_is_plain_witness :
  serialize_record open_day !! "date" = Some (VStr "2025-03-01") /\
  "date" ≠ "_id" /\ hasattr_isoformat (VStr "2025-03-01") = false.
Proof.
  assert (serialize_record open_day !! "date" = Some (VStr "2025-03-01"))
    as Hdate by evaluate.
  split; [exact Hdate|].
  exact (serialized_record_is_plain open_day "date" _ Hdate).
Defined.

Lemma ObjectId_text_round_trip_witness :
  twelve_bytes (ObjectId_of_N 1) /\
  String.length (ObjectId_str (ObjectId_of_N 1)) = 24%nat /\
  ObjectId_of_str (ObjectId_str (ObjectId_of_N 1)) = Some (ObjectId_of_N 1).
Proof.
  split; [exact first_is_twelve_bytes|].
  exact (ObjectId_text_round_trip (ObjectId_of_N 1) first_is_twelve_bytes).
Defined.

Lemma ObjectId_of_str_bytes_witness :
  ObjectId_of_str spaced = Some (Oid [0; 0; 0; 0; 0; 0; 0; 0]%N) /\
  (length [0; 0; 0; 0; 0; 0; 0; 0]%N <= 12)%nat /\
  Forall (fun b => (b < 256)%N) [0; 0; 0; 0; 0; 0; 0; 0]%N.
Proof.
  assert (ObjectId_of_str spaced = Some (Oid [0; 0; 0; 0; 0; 0; 0; 0]%N))
    as Hread by evaluate.
  split; [exact Hread|].
  exact (ObjectId_of_str_bytes spaced _ Hread).
Defined.

Lemma serialized_id_parses_back_witness :
  open_day !! "_id" = Some (VObjectId (ObjectId_of_N 1)) /\
  twelve_bytes (ObjectId_of_N 1) /\
  exists text,
    serialize_record open_day !! "id" = Some (VStr text) /\
    String.length text = 24%nat /\
    ObjectId_of_str text = Some (ObjectId_of_N 1).
Proof.
  split; [exact open_day_id|]. split; [exact first_is_twelve_bytes|].
  exact (serialized_id_parses_back open_day (ObjectId_of_N 1)
           open_day_id first_is_twelve_bytes).
Defined.

Lemma update_applies_non_null_fields_witness :
  update_route id1 (OfEvent main_hall) world1
    = (Ok (Some (serialized open_day_moved)), world1_moved) /\
  exists d oid before doc after doc',
    db world1 = Some d /\ ObjectId_of_str id1 = Some oid /\
    records "event" d = before ++ doc :: after /\
    first_with oid before doc /\
    db world1_moved = Some (set_records "event" (before ++ doc' :: after) d) /\
    doc' !! "location" = Some (VStr "Main Hall") /\
    doc' !! "updated_at" = Some (db_localTime d) /\
    doc' !! "title" = doc !! "title" /\
    Some (serialized open_day_moved) = Some (serialize_record doc').
Proof.
  assert (update_route id1 (OfEvent main_hall) world1
          = (Ok (Some (serialized open_day_moved)), world1_moved)) as Hrun
    by evaluate.
  split; [exact Hrun|].
  destruct (update_applies_non_null_fields id1 (OfEvent main_hall) world1
              world1_moved _ Hrun)
    as (d & oid & before & doc & after & doc' & Hdb & Hid & Hdocs & Hfirst & Hdb'
        & Hset & Hclock & Hnull & _ & Hanswer).
  exists d, oid, before, doc, after, doc'.
  split_and!; [exact Hdb|exact Hid|exact Hdocs|exact Hfirst|exact Hdb'| |
               exact Hclock| |exact Hanswer].
  - apply (Hset "location"); [evaluate|discriminate].
  - apply (Hnull "title" VNone); [evaluate|reflexivity].
Defined.

Lemma delete_removes_first_match_witness :
  delete_route EventEntity id1 world1 = (Ok true, world1_deleted) /\
  true = true /\
  exists d oid before doc after,
    db world1 = Some d /\ ObjectId_of_str id1 = Some oid /\
    records "event" d = before ++ doc :: after /\
    first_with oid before doc /\
    db world1_deleted = Some (set_records "event" (before ++ after) d).
Proof.
  assert (delete_route EventEntity id1 world1 = (Ok true, world1_deleted))
    as Hrun by evaluate.
  split; [exact Hrun|].
  exact (delete_removes_first_match EventEntity id1 world1 world1_deleted true Hrun).
Defined.

Lemma delete_twice_not_found_witness :
  db world1 = Some store1 /\ NoDup (ids (records "event" store1)) /\
  delete_route EventEntity id1 world1 = (Ok true, world1_deleted) /\
  exists w'',
    delete_route EventEntity id1 world1_deleted
    = (HTTPException 404 "Event not found", w'') /\
    db w'' = db world1_deleted.
Proof.
  assert (NoDup (ids (records "event" store1))) as Hdistinct.
  { assert (ids (records "event" store1) = [Some (VObjectId (ObjectId_of_N 1))])
      as -> by evaluate.
    apply NoDup_singleton. }
  assert (delete_route EventEntity id1 world1 = (Ok true, world1_deleted))
    as Hrun by evaluate.
  split_and!; [reflexivity|exact Hdistinct|exact Hrun|].
  exact (delete_twice_not_found EventEntity id1 world1 world1_deleted store1 true
           eq_refl Hdistinct Hrun).
Defined.


Lemma oversized_integer_update_fails_witness :
  (db world1 = Some store1 /\ db_fault store1 = None /\
   ObjectId_of_str id3 = Some (ObjectId_of_N 3) /\
   model_dump (OfCourse (course_change "Fall" (2 ^ 63) 3)) !! "year"
   = Some (VInt (2 ^ 63)) /\
   int64 (2 ^ 63) = false) /\
  exists fields,
    update_route id3 (OfCourse (course_change "Fall" (2 ^ 63) 3)) world1
    = (Exception overflow,
       logged [Command "isMaster"; UpdateOne "course" (ObjectId_of_N 3) fields]
              store1 world1) /\
    fields !! "year" = Some (VInt (2 ^ 63)).
Proof.
  assert (ObjectId_of_str id3 = Some (ObjectId_of_N 3)) as Hid by evaluate.
  assert (model_dump (OfCourse (course_change "Fall" (2 ^ 63) 3)) !! "year"
          = Some (VInt (2 ^ 63))) as Hyear by evaluate.
  split; [split_and!; [reflexivity|reflexivity|exact Hid|exact Hyear|reflexivity]|].
  exact (oversized_integer_update_fails id3 (ObjectId_of_N 3)
           (OfCourse (course_change "Fall" (2 ^ 63) 3)) world1 store1 "year" (2 ^ 63)
           eq_refl eq_refl Hid Hyear eq_refl).
Defined.

Lemma listed_id_deletes_record_witness :
  (db world1 = Some store1 /\ db_fault store1 = None /\
   open_day ∈ records "event" store1 /\
   open_day !! "_id" = Some (VObjectId (ObjectId_of_N 1)) /\
   twelve_bytes (ObjectId_of_N 1) /\
   serialize_record open_day !! "id" = Some (VStr id1)) /\
  exists w' d',
    delete_route EventEntity id1 world1 = (Ok true, w') /\ db w' = Some d' /\
    S (length (records "event" d')) = length (records "event" store1).
Proof.
  assert (open_day ∈ records "event" store1) as Hin
    by (rewrite events_of_store1; apply list_elem_of_here).
  assert (serialize_record open_day !! "id" = Some (VStr id1)) as Htext by evaluate.
  split; [split_and!; [reflexivity|reflexivity|exact Hin|exact open_day_id|
                       exact first_is_twelve_bytes|exact Htext]|].
  exact (listed_id_deletes_record EventEntity world1 store1 open_day
           (ObjectId_of_N 1) id1 eq_refl eq_refl Hin open_day_id
           first_is_twelve_bytes Htext).
Defined.

Lemma no_handle_no_call_witness :
  db unconfigured = None /\ data_route (DeleteEvent id1) = true /\
  app (DeleteEvent id1) unconfigured = (HTTPException 500 unavailable, unconfigured).
Proof.
  split_and!; [reflexivity|reflexivity|].
  exact (no_handle_no_call (DeleteEvent id1) unconfigured eq_refl eq_refl).
Defined.

Lemma unreachable_server_fails_data_routes_witness :
  (exists d, db unreachable = Some d /\ db_fault d = Some timed_out) /\
  data_route (GetEvents None) = true /\
  exists o w',
    app (GetEvents None) unreachable = (o, w') /\ db w' = db unreachable /\
    (o = Exception timed_out \/ exists detail, o = HTTPException 400 detail).
Proof.
  split; [eexists; split; reflexivity|]. split; [reflexivity|].
  exact (unreachable_server_fails_data_routes (GetEvents None) unreachable _
           timed_out eq_refl eq_refl eq_refl).
Defined.

Lemma get_routes_change_nothing_witness :
  reading (GetEvents None) = true /\
  app (GetEvents None) world1
  = (Ok (Records [serialize_record open_day]),
     logged [Find "event" ∅ None] store1 world1) /\
  db (logged [Find "event" ∅ None] store1 world1) = db world1.
Proof.
  split_and!; [reflexivity|exact list_events_world1|].
  exact (get_routes_change_nothing (GetEvents None) world1 _ _ eq_refl
           list_events_world1).
Defined.

Lemma responses_are_serialized_witness :
  app (GetEvents None) world1
  = (Ok (Records [serialize_record open_day]),
     logged [Find "event" ∅ None] store1 world1) /\
  Forall (fun doc : document => doc !! "_id" = None /\ no_raw_date doc)
         [serialize_record open_day].
Proof.
  split; [exact list_events_world1|].
  exact (responses_are_serialized (GetEvents None) world1 _ _ list_events_world1).
Defined.

Lemma request_touches_own_collection_witness :
  app (DeleteEvent id1) world1 = (Ok (Success true), world1_deleted) /\
  db world1 = Some store1 /\
  exists d',
    db world1_deleted = Some d' /\
    forall name, Some "event" ≠ Some name -> records name d' = records name store1.
Proof.
  split_and!; [exact delete_event_world1|reflexivity|].
  exact (request_touches_own_collection (DeleteEvent id1) world1 world1_deleted _
           store1 delete_event_world1 eq_refl).
Defined.
